(** * sd01a: training script for the 3D residual sex-determination network

    A shallow embedding of [src/train/sex_det/sd01a.py].

    - file discovery ([get_data_files]) runs over a tree model of the
      directory structure that [os.scandir] exposes;
    - data assembly ([create_data_generators]) is explicit list code, with
      the in-place row assignment [X[i, ...] = volume] as a list update
      that raises where numpy refuses the index or the shape;
    - the Keras graph built by [res_block] and [define_model] is a term of
      an inductive type of layer applications, and a call returns its term
      when every layer takes the shape of its input;
    - the entry point is a program in a small exception-and-trace monad.

    Python integers are unbounded, so counts are [nat] and layer parameters
    are [Z]. *)

From Stdlib Require Import ZArith QArith Reals Lra.
From stdpp Require Import base strings list.

Local Open Scope string_scope.

(** ** Exceptions and results *)

Inductive exn :=
| FileNotFoundError (path : string)
| NotADirectoryError (path : string)
| NameError (name : string)
| ValueError (msg : string)
| IndexError (index : nat).

Inductive result (A : Type) :=
| Ok (a : A)
| Raise (e : exn).
Arguments Ok {A} a.
Arguments Raise {A} e.

Definition result_bind {A B} (m : result A) (k : A → result B) : result B :=
  match m with
  | Ok a => k a
  | Raise e => Raise e
  end.

#[global] Instance result_ret : MRet result := @Ok.
#[global] Instance result_mbind : MBind result := λ A B k m, result_bind m k.

(** ** Strings and paths *)

(** [str.endswith] *)
Definition endswith (s suffix : string) : bool :=
  let n := String.length s in
  let m := String.length suffix in
  (m <=? n)%nat && String.eqb (String.substring (n - m) m s) suffix.

(** [os.path.join] on two components (posixpath). *)
Definition os_path_join (a b : string) : string :=
  if String.prefix "/" b then b
  else if String.eqb a "" || endswith a "/" then a +:+ b
  else a +:+ "/" +:+ b.

(** ** The directory tree seen through [os.scandir]

    An [entry] is what [os.scandir] yields for one name of a directory: a
    regular file, a directory with its own entries, or something that is
    neither ([is_file()] and [is_dir()] both false: a socket, a fifo, a
    dangling link). *)

#[warnings="-register-all"] Inductive entry :=
| File (name : string)
| Dir (name : string) (items : list entry)
| Special (name : string).

Definition entry_name (e : entry) : string :=
  match e with
  | File n | Dir n _ | Special n => n
  end.

Definition is_file (e : entry) : bool :=
  match e with
  | File _ => true
  | _ => false
  end.

Definition is_dir (e : entry) : bool :=
  match e with
  | Dir _ _ => true
  | _ => false
  end.

(** [item.path] of an entry yielded by [os.scandir(root)]. *)
Definition entry_path (root : string) (e : entry) : string :=
  os_path_join root (entry_name e).

(** The body of the loop of [get_data_files], for one [item] of
    [os.scandir(root)]; the recursive call scans the entries of the
    sub-directory under [item.path]. *)
Fixpoint get_data_files_item (root : string) (item : entry) {struct item}
  : list string :=
  let path := entry_path root item in
  if is_file item && endswith path ".npy" then [path]
  else match item with
       | Dir _ sub => flat_map (get_data_files_item path) sub
       | _ => []
       end.

(** [list(get_data_files(root))] once [os.scandir(root)] has answered with
    [items]. *)
Definition get_data_files_in (root : string) (items : list entry) : list string :=
  flat_map (get_data_files_item root) items.

(** A file system resolves a path to the tree found there, if any. *)
Definition filesystem := string → option entry.

(** [list(get_data_files(root))]: [os.scandir] raises on a missing path and
    on a path that is not a directory. *)
Definition get_data_files (fs : filesystem) (root : string) : result (list string) :=
  match fs root with
  | None => Raise (FileNotFoundError root)
  | Some (Dir _ items) => Ok (get_data_files_in root items)
  | Some _ => Raise (NotADirectoryError root)
  end.

(** The regular files of the tree below [root], each with its path. *)
Inductive file_under : string → list entry → string → Prop :=
| file_here root items n :
    File n ∈ items →
    file_under root items (os_path_join root n)
| file_below root items n sub p :
    Dir n sub ∈ items →
    file_under (os_path_join root n) sub p →
    file_under root items p.

(** ** Data assembly

    [np.load], the arrays and the random state are the environment of the
    script: an array is an element of an arbitrary type with a shape,
    [np_load] is what reading a path gives (it may raise), and a random
    state is the sequence of its draws. *)

(** [np.zeros(n)] and [np.ones(n)] as vectors of the numbers 0 and 1. *)
Definition np_zeros (n : nat) : list Z := replicate n 0%Z.
Definition np_ones (n : nat) : list Z := replicate n 1%Z.

(** [np.hstack((a, b))] on two vectors. *)
Definition np_hstack (a b : list Z) : list Z := a ++ b.

(** [a.astype(np.bool)]: a number is true when it is not zero. *)
Definition astype_bool (a : list Z) : list bool := (λ v, negb (v =? 0)%Z) <$> a.

(** [a.take(indices)]: the rows of [a] at [indices], in that order; an
    index out of range raises. *)
Definition np_take {A} (a : list A) (indices : list nat) : option (list A) :=
  mapM (λ j, a !! j) indices.

(** [x[i], x[j] = x[j], x[i]] *)
Definition swap {A} (x : list A) (i j : nat) : list A :=
  match x !! i, x !! j with
  | Some xi, Some xj => <[j := xi]> (<[i := xj]> x)
  | _, _ => x
  end.

(** The loop of [RandomState.shuffle]:
    [for i in reversed(range(1, n)): j = draw in [0, i]; swap x[i], x[j]].
    [shuffle_loop rnd i x] runs the iterations [i, i-1, ..., 1]; the draw of
    iteration [i] is [rnd i], reduced to the interval [0, i]. *)
Fixpoint shuffle_loop {A} (rnd : nat → nat) (i : nat) (x : list A) : list A :=
  match i with
  | 0 => x
  | S i' => shuffle_loop rnd i' (swap x i (rnd i mod S i))
  end.

Definition random_state_shuffle {A} (rnd : nat → nat) (x : list A) : list A :=
  shuffle_loop rnd (length x - 1) x.

(** [sklearn.utils.shuffle(X, y)]: the lengths are checked, one index
    permutation is drawn and both arrays are taken at it. *)
Definition sklearn_shuffle {A B} (rnd : nat → nat) (X : list A) (y : list B)
  : result (list A * list B) :=
  if negb (length X =? length y)%nat then
    Raise (ValueError "Found input variables with inconsistent numbers of samples")
  else
    let indices := random_state_shuffle rnd (seq 0 (length X)) in
    match np_take X indices, np_take y indices with
    | Some X', Some y' => Ok (X', y')
    | _, _ => Raise (IndexError (length X))
    end.

(** The shapes that numpy accepts in an assignment [dst[...] = src]:
    unit axes in front of [src] that [dst] does not have are dropped, and
    then the axes of [src], aligned at the last one, must each be equal to
    the axis of [dst] or be 1. *)
Fixpoint strip_leading_ones (ndim : nat) (src : list Z) : list Z :=
  match src with
  | s :: rest =>
      if (ndim <? length src)%nat && (s =? 1)%Z
      then strip_leading_ones ndim rest
      else src
  | [] => []
  end.

(** Both shapes with the last axis first. *)
Fixpoint dims_fit (src dst : list Z) : bool :=
  match src, dst with
  | [], _ => true
  | _ :: _, [] => false
  | s :: src', d :: dst' => ((s =? d)%Z || (s =? 1)%Z) && dims_fit src' dst'
  end.

Definition broadcastable (src dst : list Z) : bool :=
  dims_fit (rev (strip_leading_ones (length dst) src)) (rev dst).

Section DataAssembly.
Context {volume : Type}.
(** [np.zeros(shape)], one row of the array that is filled in. *)
Variable zeros : list Z → volume.
(** [v.shape] of an array. *)
Variable shape_of : volume → list Z.
(** What an assignment into a [float64] array of shape [shape] stores for
    the array [v]: [v] broadcast to [shape] and cast to [float64]. *)
Variable as_row : list Z → volume → volume.
Variable np_load : string → result volume.

(** [X[i, :, :, :, :] = volume], where the rows of [X] have the shape
    [image_shape]. Five indices need an array of five axes or more
    ([IndexError], here with the number of indices), and the volume must
    fit the row ([ValueError]). *)
Definition set_row (image_shape : list Z) (X : list volume) (i : nat) (v : volume)
  : result (list volume) :=
  if (length image_shape <? 4)%nat then Raise (IndexError 5)
  else if negb (broadcastable (shape_of v) image_shape) then
    Raise (ValueError "could not broadcast input array")
  else if (i <? length X)%nat then Ok (<[i := as_row image_shape v]> X)
  else Raise (IndexError i).

(** [for i, f in enumerate(files): volume = np.load(f); X[i, ...] = volume],
    entered at index [i] with the array [X]. *)
Fixpoint load_loop (image_shape : list Z) (i : nat) (files : list string)
    (X : list volume) : result (list volume) :=
  match files with
  | [] => Ok X
  | f :: rest =>
      v ← np_load f;
      X' ← set_row image_shape X i v;
      load_loop image_shape (S i) rest X'
  end.

(** The part of [create_data_generators] that builds the arrays of one
    split directory, up to the shuffle: the files of ['0'] first, then
    those of ['1'], and the label vector made from the two counts.
    [np.zeros] refuses a negative extent. *)
Definition assemble (fs : filesystem) (split_dir : string) (image_shape : list Z)
  : result (list volume * list bool) :=
  neg_files ← get_data_files fs (os_path_join split_dir "0");
  pos_files ← get_data_files fs (os_path_join split_dir "1");
  let total := (length neg_files + length pos_files)%nat in
  if negb (forallb (λ d, (0 <=? d)%Z) image_shape) then
    Raise (ValueError "negative dimensions are not allowed")
  else
    X ← load_loop image_shape 0 (neg_files ++ pos_files)
          (replicate total (zeros image_shape));
    let y := astype_bool (np_hstack (np_zeros (length neg_files))
                                    (np_ones (length pos_files))) in
    Ok (X, y).

(** Every file of the list loads, to the array [vol f], and that array
    fits a row. *)
Definition loadable (vol : string → volume) (image_shape : list Z)
    (files : list string) : Prop :=
  ∀ f, f ∈ files →
       np_load f = Ok (vol f) ∧
       broadcastable (shape_of (vol f)) image_shape = true.

(** The arrays of one split as [create_data_generators] hands them to
    [flow]: assembled, then shuffled. *)
Definition load_split (fs : filesystem) (rnd : nat → nat) (split_dir : string)
    (image_shape : list Z) : result (list volume * list bool) :=
  '(X, y) ← assemble fs split_dir image_shape;
  sklearn_shuffle rnd X y.
End DataAssembly.

(** ** The generators *)

(** The keyword arguments of a call of
    [helper.preprocessing_3d.ImageDataGenerator], each with the value that
    the call passes, or [None] when the call does not pass it. The class
    itself is not among the sources; what a generator does with its
    arguments is not modelled. *)
Record ImageDataGenerator := {
  rotation_range : option Q;
  width_shift_range : option Q;
  height_shift_range : option Q;
  depth_shift_range : option Q;
  zoom_range : option Q;
  horizontal_flip : option bool;
  vertical_flip : option bool;
  depth_flip : option bool
}.

(** [ImageDataGenerator()] *)
Definition ImageDataGenerator_no_args : ImageDataGenerator :=
  {| rotation_range := None; width_shift_range := None;
     height_shift_range := None; depth_shift_range := None;
     zoom_range := None; horizontal_flip := None; vertical_flip := None;
     depth_flip := None |}.

(** The generator that [datagen.flow(X, y, batch_size=batch_size)] returns,
    as the arguments it was made from. *)
Record NumpyArrayIterator (volume : Type) := {
  it_datagen : ImageDataGenerator;
  it_X : list volume;
  it_y : list bool;
  it_batch_size : nat
}.
Arguments it_datagen {volume} _.
Arguments it_X {volume} _.
Arguments it_y {volume} _.
Arguments it_batch_size {volume} _.

Definition flow {volume} (datagen : ImageDataGenerator) (X : list volume)
    (y : list bool) (batch_size : nat) : NumpyArrayIterator volume :=
  {| it_datagen := datagen; it_X := X; it_y := y; it_batch_size := batch_size |}.

Section Generators.
Context {volume : Type}.
Variable zeros : list Z → volume.
Variable shape_of : volume → list Z.
Variable as_row : list Z → volume → volume.
Variable np_load : string → result volume.

(** [create_data_generators]; [rnd_train] and [rnd_val] are the draws of
    the random state during the first and the second shuffle. *)
Definition create_data_generators (fs : filesystem) (rnd_train rnd_val : nat → nat)
    (train_dir val_dir : string) (image_shape : list Z) (batch_size : nat)
  : result (NumpyArrayIterator volume * NumpyArrayIterator volume) :=
  let train_datagen :=
    {| rotation_range := Some 30%Q;
       width_shift_range := Some 0.125%Q;
       height_shift_range := Some 0.125%Q;
       depth_shift_range := Some 0.125%Q;
       zoom_range := Some 0.125%Q;
       horizontal_flip := Some true;
       vertical_flip := Some false;
       depth_flip := Some false |} in
  let val_datagen := ImageDataGenerator_no_args in
  '(X_train, y_train) ← load_split zeros shape_of as_row np_load fs rnd_train
                          train_dir image_shape;
  '(X_val, y_val) ← load_split zeros shape_of as_row np_load fs rnd_val
                      val_dir image_shape;
  let train_generator := flow train_datagen X_train y_train batch_size in
  let val_generator := flow val_datagen X_val y_val batch_size in
  Ok (train_generator, val_generator).
End Generators.

(** ** The Keras graph

    A Keras tensor is the term of the layer applications that produce it.
    Layer parameters keep the names and the order of the Keras 1 calls of
    the source. *)

#[warnings="-register-all"] Inductive tensor :=
| Input (shape : list Z)
| BatchNormalization (axis : Z) (x : tensor)
| Activation (activation : string) (x : tensor)
| Convolution3D (nb_filter kernel_dim1 kernel_dim2 kernel_dim3 : Z)
    (subsample : Z * Z * Z) (border_mode : string) (x : tensor)
| merge (inputs : list tensor) (mode : string)
| AveragePooling3D (pool_size : Z * Z * Z) (x : tensor)
| Flatten (x : tensor)
| Dense (output_dim : Z) (activation : string) (name : string) (x : tensor).

(** [res_block]; the argument [block] is accepted and not used. *)
Definition res_block (input_tensor : tensor) (nb_filters block subsample_factor : Z)
  : tensor :=
  let subsample := (subsample_factor, subsample_factor, subsample_factor) in
  let x := BatchNormalization 4 input_tensor in
  let x := Activation "relu" x in
  let x := Convolution3D nb_filters 3 3 3 subsample "same" x in
  let x := BatchNormalization 4 x in
  let x := Activation "relu" x in
  let x := Convolution3D nb_filters 3 3 3 (1, 1, 1)%Z "same" x in
  let shortcut :=
    if (subsample_factor >? 1)%Z
    then Convolution3D nb_filters 1 1 1 subsample "same" input_tensor
    else input_tensor in
  merge [x; shortcut] "sum".

(** [Model(img_input, x)] after [compile]. *)
Record Model := {
  model_input : tensor;
  model_output : tensor;
  optimizer : string;
  loss : string;
  metrics : list string
}.

Definition define_model (image_shape : list Z) : Model :=
  let img_input := Input image_shape in

  let x := Convolution3D 16 5 5 5 (1, 1, 1)%Z "same" img_input in

  let x := res_block x 16 0 1 in
  let x := res_block x 16 0 1 in
  let x := res_block x 16 0 1 in

  let x := res_block x 32 1 2 in
  let x := res_block x 32 1 1 in
  let x := res_block x 32 1 1 in

  let x := res_block x 64 2 2 in
  let x := res_block x 64 2 1 in
  let x := res_block x 64 2 1 in

  let x := res_block x 128 3 2 in
  let x := res_block x 128 3 1 in
  let x := res_block x 128 3 1 in

  let x := BatchNormalization 4 x in
  let x := Activation "relu" x in

  let x := AveragePooling3D (4, 4, 8)%Z x in
  let x := Flatten x in
  let x := Dense 1 "sigmoid" "predictions" x in

  {| model_input := img_input; model_output := x;
     optimizer := "adam"; loss := "binary_crossentropy";
     metrics := ["accuracy"; "precision"; "recall"; "fmeasure"] |}.

(** The arguments of one call of [res_block]. *)
Record res_block_call := {
  nb_filters : Z;
  block : Z;
  subsample_factor : Z
}.

(** The calls of [res_block] in [define_model], in the order of the text. *)
Definition define_model_blocks : list res_block_call :=
  [ {| nb_filters := 16; block := 0; subsample_factor := 1 |};
    {| nb_filters := 16; block := 0; subsample_factor := 1 |};
    {| nb_filters := 16; block := 0; subsample_factor := 1 |};
    {| nb_filters := 32; block := 1; subsample_factor := 2 |};
    {| nb_filters := 32; block := 1; subsample_factor := 1 |};
    {| nb_filters := 32; block := 1; subsample_factor := 1 |};
    {| nb_filters := 64; block := 2; subsample_factor := 2 |};
    {| nb_filters := 64; block := 2; subsample_factor := 1 |};
    {| nb_filters := 64; block := 2; subsample_factor := 1 |};
    {| nb_filters := 128; block := 3; subsample_factor := 2 |};
    {| nb_filters := 128; block := 3; subsample_factor := 1 |};
    {| nb_filters := 128; block := 3; subsample_factor := 1 |} ].

(** Residual blocks applied one after the other to [x]. *)
Definition apply_blocks (calls : list res_block_call) (x : tensor) : tensor :=
  foldl (λ x c, res_block x (nb_filters c) (block c) (subsample_factor c)) x calls.

(** The calls that belong to stage [k], and the strided ones among them. *)
Definition stage (k : Z) : list res_block_call :=
  filter (λ c, block c = k) define_model_blocks.

Definition strided (calls : list res_block_call) : list res_block_call :=
  filter (λ c, (1 < subsample_factor c)%Z) calls.

(** *** Shapes (channels last, without the batch axis) *)

(** Keras' [conv_output_length] without dilation. *)
Definition conv_output_length (input_length filter_size : Z) (border_mode : string)
    (stride : Z) : option Z :=
  if String.eqb border_mode "same" then
    Some ((input_length + stride - 1) / stride)%Z
  else if String.eqb border_mode "valid" then
    Some ((input_length - filter_size + 1 + stride - 1) / stride)%Z
  else if String.eqb border_mode "full" then
    Some ((input_length + filter_size - 1 + stride - 1) / stride)%Z
  else None.

Fixpoint output_shape (t : tensor) {struct t} : option (list Z) :=
  match t with
  | Input shape => Some shape
  | BatchNormalization _ x => output_shape x
  | Activation _ x => output_shape x
  | Convolution3D nb_filter k1 k2 k3 (s1, s2, s3) border_mode x =>
      match output_shape x with
      | Some [d1; d2; d3; _] =>
          if (0 <? s1)%Z && (0 <? s2)%Z && (0 <? s3)%Z then
            l1 ← conv_output_length d1 k1 border_mode s1;
            l2 ← conv_output_length d2 k2 border_mode s2;
            l3 ← conv_output_length d3 k3 border_mode s3;
            Some [l1; l2; l3; nb_filter]
          else None
      | _ => None
      end
  | merge inputs mode =>
      match inputs with
      | a :: rest =>
          sa ← output_shape a;
          if forallb (λ b, bool_decide (output_shape b = Some sa)) rest
          then Some sa else None
      | [] => None
      end
  | AveragePooling3D (p1, p2, p3) x =>
      match output_shape x with
      | Some [d1; d2; d3; c] =>
          if (0 <? p1)%Z && (0 <? p2)%Z && (0 <? p3)%Z then
            l1 ← conv_output_length d1 p1 "valid" p1;
            l2 ← conv_output_length d2 p2 "valid" p2;
            l3 ← conv_output_length d3 p3 "valid" p3;
            Some [l1; l2; l3; c]
          else None
      | _ => None
      end
  | Flatten x =>
      s ← output_shape x;
      if forallb (λ d, negb (d =? 0)%Z) s then Some [foldr Z.mul 1%Z s] else None
  | Dense output_dim _ _ x =>
      match output_shape x with
      | Some [_] => Some [output_dim]
      | _ => None
      end
  end.

(** Calling a layer on a tensor checks the shapes, and the call raises when
    the layer does not take the shape: a stride or a window that is not
    positive, inputs of different shapes in a sum, an extent of 0 in
    [Flatten]. The class of the exception depends on the layer and on the
    backend, so a call that raises is [None] here. *)
Definition checked (t : tensor) : option tensor :=
  _ ← output_shape t; Some t.

(** [res_block(...)] as a call: the tensor, or [None] when a layer call in
    it raises. *)
Definition call_res_block (input_tensor : tensor)
    (nb_filters block subsample_factor : Z) : option tensor :=
  checked (res_block input_tensor nb_filters block subsample_factor).

(** [define_model(image_shape)] as a call. *)
Definition call_define_model (image_shape : list Z) : option Model :=
  let model := define_model image_shape in
  _ ← output_shape (model_output model); Some model.

(** The number of elements of an array of a shape. *)
Definition size (shape : list Z) : nat := Z.to_nat (foldr Z.mul 1%Z shape).

(** *** Values

    What a graph computes on one input. An element of an array is a real
    number, an infinity or NaN; sums and products of finite elements are
    those of the real numbers (rounding and overflow are not modelled),
    and NaN and the infinities follow the rules of floating-point
    arithmetic. The learned layers (convolution, normalisation, pooling)
    are taken as arbitrary functions, one per layer of the graph;
    activations, the sum of a merge and the dense layer are written out. *)

Inductive fval :=
| Fin (r : R)
| PInf
| NInf
| NaN.

Definition f_add (a b : fval) : fval :=
  match a, b with
  | NaN, _ | _, NaN => NaN
  | Fin x, Fin y => Fin (x + y)
  | PInf, NInf | NInf, PInf => NaN
  | PInf, _ | _, PInf => PInf
  | NInf, _ | _, NInf => NInf
  end.

(** The product of an infinity and a finite element [x]; [pos] tells
    whether the infinity is the positive one. *)
Definition f_scale_inf (pos : bool) (x : R) : fval :=
  if Req_EM_T x 0 then NaN
  else if Rlt_dec 0 x then (if pos then PInf else NInf)
  else (if pos then NInf else PInf).

Definition f_mul (a b : fval) : fval :=
  match a, b with
  | NaN, _ | _, NaN => NaN
  | Fin x, Fin y => Fin (x * y)
  | Fin x, PInf | PInf, Fin x => f_scale_inf true x
  | Fin x, NInf | NInf, Fin x => f_scale_inf false x
  | PInf, PInf | NInf, NInf => PInf
  | PInf, NInf | NInf, PInf => NInf
  end.

Definition relu (x : fval) : fval :=
  match x with
  | Fin r => Fin (Rmax 0 r)
  | PInf => PInf
  | NInf => Fin 0
  | NaN => NaN
  end.

Definition sigmoid (x : fval) : fval :=
  match x with
  | Fin r => Fin (1 / (1 + exp (- r)))
  | PInf => Fin 1
  | NInf => Fin 0
  | NaN => NaN
  end.

Definition activation_fn (name : string) : option (fval → fval) :=
  if String.eqb name "relu" then Some relu
  else if String.eqb name "sigmoid" then Some sigmoid
  else if String.eqb name "linear" then Some (λ x, x)
  else None.

(** The elementwise sum of the inputs of [merge(..., mode='sum')]; inputs
    of different sizes are refused. *)
Definition sum_inputs (vs : list (list fval)) : option (list fval) :=
  match vs with
  | [] => None
  | v :: rest =>
      if forallb (λ w, (length w =? length v)%nat) rest
      then Some (foldl (zip_with f_add) v rest)
      else None
  end.

(** An element is a number of the closed interval from 0 to 1. *)
Definition in_unit_interval (p : fval) : Prop :=
  match p with
  | Fin r => (0 <= r <= 1)%R
  | _ => False
  end.

Section Values.
(** The function computed by the learned layer at a node of the graph. *)
Variable layer_op : tensor → list fval → list fval.
(** Kernel and bias of the dense layer at a node of the graph. *)
Variable kernel : tensor → nat → nat → fval.
Variable bias : tensor → nat → fval.

(** The learned layers return arrays of the shape of their node. *)
Definition layers_keep_shapes : Prop :=
  ∀ t v s, output_shape t = Some s → length (layer_op t v) = size s.

(** What the unit [j] of a dense layer has before its activation. *)
Definition dense_unit (t : tensor) (x : list fval) (j : nat) : fval :=
  f_add (foldr f_add (Fin 0) (imap (λ i xi, f_mul xi (kernel t i j)) x)) (bias t j).

Fixpoint eval (t : tensor) (input : list fval) {struct t} : option (list fval) :=
  match t with
  | Input shape =>
      if (length input =? size shape)%nat then Some input else None
  | BatchNormalization _ x => layer_op t <$> eval x input
  | Convolution3D _ _ _ _ _ _ x => layer_op t <$> eval x input
  | AveragePooling3D _ x => layer_op t <$> eval x input
  | Activation name x =>
      f ← activation_fn name;
      fmap (M := list) f <$> eval x input
  | merge inputs mode =>
      if String.eqb mode "sum" then
        mapM (λ x, eval x input) inputs ≫= sum_inputs
      else None
  | Flatten x => eval x input
  | Dense output_dim activation _ x =>
      f ← activation_fn activation;
      v ← eval x input;
      Some ((λ j, f (dense_unit t v j)) <$> seq 0 (Z.to_nat output_dim))
  end.

(** [model.predict] on one volume. *)
Definition predict (m : Model) (input : list fval) : option (list fval) :=
  eval (model_output m) input.

(** The tensor has the shape [s], and on [input] it has a value of that
    many elements. *)
Definition sized (input : list fval) (t : tensor) (s : list Z) : Prop :=
  output_shape t = Some s ∧
  ∃ v, eval t input = Some v ∧ length v = size s.
End Values.

(** Learned layers for examples: every layer returns zeros, in the shape
    of its node. *)
Definition sample_layer_op (t : tensor) (v : list fval) : list fval :=
  replicate (size (default [] (output_shape t))) (Fin 0).

(** ** The training driver *)

(** [keras.callbacks.ModelCheckpoint]; [monitor] is the quantity watched,
    which Keras sets to ['val_loss'] when the call does not pass it. *)
Record ModelCheckpoint := {
  mc_filepath : string;
  mc_monitor : string;
  mc_verbose : Z;
  mc_save_best_only : bool
}.

(** [keras.callbacks.EarlyStopping] *)
Record EarlyStopping := {
  es_monitor : string;
  es_patience : Z;
  es_verbose : Z
}.

Inductive callback :=
| Checkpointer (c : ModelCheckpoint)
| Stopper (c : EarlyStopping).

(** The arguments of the one call [model.fit_generator(...)]. *)
Record fit_generator_call (G : Type) := {
  fit_generator : G;
  fit_samples_per_epoch : nat;
  fit_nb_epoch : nat;
  fit_verbose : Z;
  fit_callbacks : list callback;
  fit_validation_data : G;
  fit_nb_val_samples : nat;
  fit_max_q_size : Z;
  fit_nb_worker : Z;
  fit_pickle_safe : bool;
  fit_initial_epoch : Z
}.
Arguments fit_generator {G} _.
Arguments fit_samples_per_epoch {G} _.
Arguments fit_nb_epoch {G} _.
Arguments fit_verbose {G} _.
Arguments fit_callbacks {G} _.
Arguments fit_validation_data {G} _.
Arguments fit_nb_val_samples {G} _.
Arguments fit_max_q_size {G} _.
Arguments fit_nb_worker {G} _.
Arguments fit_pickle_safe {G} _.
Arguments fit_initial_epoch {G} _.

(** [train]: everything it does is the call of [fit_generator] that it
    returns here. *)
Definition train {G} (model : Model) (train_generator val_generator : G)
    (weights_filepath : string) (config : nat * nat * nat * nat)
  : fit_generator_call G :=
  let '(batch_size, nb_epoch, samples_per_epoch, nb_val_samples) := config in
  let checkpointer :=
    {| mc_filepath := weights_filepath; mc_monitor := "val_loss";
       mc_verbose := 2; mc_save_best_only := true |} in
  let early_stopping :=
    {| es_monitor := "val_loss"; es_patience := 10; es_verbose := 2 |} in
  {| fit_generator := train_generator;
     fit_samples_per_epoch := samples_per_epoch;
     fit_nb_epoch := nb_epoch;
     fit_verbose := 2;
     fit_callbacks := [Checkpointer checkpointer; Stopper early_stopping];
     fit_validation_data := val_generator;
     fit_nb_val_samples := nb_val_samples;
     fit_max_q_size := 20;
     fit_nb_worker := 4;
     fit_pickle_safe := false;
     fit_initial_epoch := 0 |}.

(** ** The entry point *)

(** The names that the module binds before the main block runs: the
    imports of lines 1 to 11 and the five functions. *)
Definition module_globals : list string :=
  [ "os"; "argparse"; "np"; "sklearn_shuffle"; "tf"; "Model";
    "Flatten"; "Dense"; "Input"; "merge";
    "Convolution3D"; "MaxPooling3D"; "BatchNormalization"; "Activation";
    "AveragePooling3D";
    "ModelCheckpoint"; "EarlyStopping";
    "ImageDataGenerator";
    "get_data_files"; "create_data_generators"; "res_block"; "define_model";
    "train" ].

(** What the main block does to the outside, in order. *)
Inductive event :=
| EvOpen (path : string)
| EvClose (path : string)
| EvJsonLoad (path : string)
| EvMakedirs (path : string)
| EvListFiles (root : string)
| EvPrint (label : string)
| EvCreateGenerators (train_dir val_dir : string)
| EvDefineModel
| EvFit (samples_per_epoch nb_val_samples : nat).

(** The state of a run: the global names bound so far and the trace. *)
Record world := {
  names : list string;
  trace : list event
}.

Definition initial_world : world :=
  {| names := module_globals; trace := [] |}.

(** A statement either completes or raises, in both cases with the world
    it leaves behind. *)
Definition M (A : Type) : Type := world → result A * world.

Definition M_ret {A} (a : A) : M A := λ w, (Ok a, w).

Definition M_bind {A B} (m : M A) (k : A → M B) : M B :=
  λ w, match m w with
       | (Ok a, w') => k a w'
       | (Raise e, w') => (Raise e, w')
       end.

Notation "x <- m ;; k" := (M_bind m (λ x, k))
  (at level 100, m at next level, right associativity).
Notation "m ;;; k" := (M_bind m (λ _, k))
  (at level 100, right associativity).

Definition emit (ev : event) : M unit :=
  λ w, (Ok (), {| names := names w; trace := trace w ++ [ev] |}).

(** [name = ...] at module level. *)
Definition assign (name : string) : M unit :=
  λ w, (Ok (), {| names := name :: names w; trace := trace w |}).

(** Reading a global name: [NameError] when nothing has bound it. *)
Definition load_global (name : string) : M unit :=
  λ w, if bool_decide (name ∈ names w) then (Ok (), w)
       else (Raise (NameError name), w).

Definition lift {A} (r : result A) : M A := λ w, (r, w).

(** [open(path, 'r')] *)
Definition open_file (fs : filesystem) (path : string) : M string :=
  match fs path with
  | Some (File _) => emit (EvOpen path) ;;; M_ret path
  | _ => lift (Raise (FileNotFoundError path))
  end.

(** [with open(...) as f: body]: the file is closed when the body
    completes and when it raises. *)
Definition with_file {A} (fs : filesystem) (path : string) (body : string → M A)
  : M A :=
  f <- open_file fs path ;;
  λ w, match body f w with
       | (r, w') => (r, {| names := names w'; trace := trace w' ++ [EvClose f] |})
       end.

(** [len(list(get_data_files(root)))] *)
Definition count_files (fs : filesystem) (root : string) : M nat :=
  emit (EvListFiles root) ;;;
  files <- lift (get_data_files fs root) ;;
  M_ret (length files).

(** [str.replace(old, new)] for a non-empty [old]; [skip] characters of
    the match just replaced are still to be passed over. *)
Fixpoint str_replace_from (old new s : string) (skip : nat) : string :=
  match s with
  | EmptyString => EmptyString
  | String c s' =>
      match skip with
      | S k => str_replace_from old new s' k
      | O =>
          if String.prefix old s
          then new +:+ str_replace_from old new s' (String.length old - 1)
          else String c (str_replace_from old new s' 0)
      end
  end.

Definition str_replace (s old new : string) : string :=
  str_replace_from old new s 0.

Definition batch_size : nat := 16.
Definition nb_epoch : nat := 1000.

(** The training configuration of the main block: the two sample counts
    come from the number of volume files found under the split
    directories. *)
Definition training_config (fs : filesystem) (train_dir val_dir : string)
  : M (nat * nat * nat * nat) :=
  n_train <- count_files fs train_dir ;;
  let samples_per_epoch := batch_size * (n_train / batch_size) in
  n_val <- count_files fs val_dir ;;
  let nb_val_samples := batch_size * (n_val / batch_size) in
  M_ret (batch_size, nb_epoch, samples_per_epoch, nb_val_samples).

Section Main.
Context {volume : Type}.
Variable zeros : list Z → volume.
Variable shape_of : volume → list Z.
Variable as_row : list Z → volume → volume.
Variable np_load : string → result volume.
(** The random state during the two shuffles. *)
Variables rnd_train rnd_val : nat → nat.
(** [os.path.abspath] and [os.path.dirname], and the base name of
    [__file__]: they depend on the process, not on the script. *)
Variable os_path_abspath : string → string.
Variable os_path_dirname : string → string.
Variable script_basename : string.

Definition SETTINGS_FILE_PATH : string := "../../SETTINGS.json".

Definition main (fs : filesystem)
  : M (fit_generator_call (NumpyArrayIterator volume)) :=
  assign "SETTINGS_FILE_PATH" ;;;
  load_global "os" ;;;
  let BASEPATH := os_path_dirname (os_path_abspath SETTINGS_FILE_PATH) in
  assign "BASEPATH" ;;;

  with_file fs SETTINGS_FILE_PATH (λ f,
    assign "f" ;;;
    load_global "json" ;;;
    emit (EvJsonLoad f) ;;;
    assign "SETTINGS") ;;;

  let image_shape := [32; 32; 64; 1]%Z in

  let train_dir := os_path_join BASEPATH "data_train/stage1/sex_det/volumes_1/train" in
  let val_dir := os_path_join BASEPATH "data_train/stage1/sex_det/volumes_1/val" in
  let weights_filepath :=
    os_path_join BASEPATH
      ("weights/stage1/sex_det/" +:+ str_replace script_basename ".py" ".hdf5") in
  emit (EvMakedirs (os_path_join BASEPATH "weights/stage1/sex_det")) ;;;

  training_config <- training_config fs train_dir val_dir ;;

  emit (EvPrint "training config") ;;;
  emit (EvPrint "batch_size:") ;;;
  emit (EvPrint "samples_per_epoch:") ;;;
  emit (EvPrint "nb_epoch:") ;;;
  emit (EvPrint "nb_val_samples:") ;;;
  emit (EvPrint "paths") ;;;
  emit (EvPrint "train dir:") ;;;
  emit (EvPrint "val dir:") ;;;
  emit (EvPrint "weights filepath:") ;;;
  _ <- count_files fs (train_dir +:+ "/0") ;; emit (EvPrint "# train(-):") ;;;
  _ <- count_files fs (train_dir +:+ "/1") ;; emit (EvPrint "# train(+):") ;;;
  _ <- count_files fs (val_dir +:+ "/0") ;; emit (EvPrint "# val(-):") ;;;
  _ <- count_files fs (val_dir +:+ "/1") ;; emit (EvPrint "# val(+):") ;;;
  emit (EvPrint "") ;;;

  emit (EvCreateGenerators train_dir val_dir) ;;;
  generators <- lift (create_data_generators zeros shape_of as_row np_load fs
                        rnd_train rnd_val train_dir val_dir image_shape
                        batch_size) ;;
  emit EvDefineModel ;;;
  let model := define_model image_shape in
  let call := train model generators.1 generators.2 weights_filepath training_config in
  emit (EvFit (fit_samples_per_epoch call) (fit_nb_val_samples call)) ;;;
  M_ret call.
End Main.

(** ** Directory trees and file systems that fit together *)

(** The sub-directories among [items], the entries of the directory at
    [root], are what the file system resolves their paths to: scanning
    [item.path] gives the entries that the tree has below [item]. *)
Definition mounted (fs : filesystem) (root : string) (items : list entry) : Prop :=
  ∀ m sub, Dir m sub ∈ items → fs (os_path_join root m) = Some (Dir m sub).

(** The path separator, the character of code 47. *)
Definition sep_char : Ascii.ascii := Eval cbv in Ascii.ascii_of_nat 47.

(** The separator occurs in a string. *)
Fixpoint has_sep (s : string) : bool :=
  match s with
  | EmptyString => false
  | String c s' => Ascii.eqb c sep_char || has_sep s'
  end.

(** A name of a directory entry is not empty and has no separator. *)
Definition valid_name (n : string) : bool :=
  negb (String.eqb n "") && negb (has_sep n).

(** The names inside every directory of the tree are valid and pairwise
    distinct. *)
Fixpoint well_formed (e : entry) : bool :=
  valid_name (entry_name e) &&
  match e with
  | Dir _ items =>
      bool_decide (NoDup (entry_name <$> items)) && forallb well_formed items
  | _ => true
  end.

(** What [os.path.join(root, name)] puts in front of a relative [name]. *)
Definition dir_prefix (root : string) : string :=
  if String.eqb root "" || endswith root "/" then root else root +:+ "/".

(** The dot, the character of code 46, and whether it occurs in a
    string. *)
Definition dot_char : Ascii.ascii := Eval cbv in Ascii.ascii_of_nat 46.

Fixpoint has_dot (s : string) : bool :=
  match s with
  | EmptyString => false
  | String c s' => Ascii.eqb c dot_char || has_dot s'
  end.

(** ** A small directory tree, for examples *)

Definition sample_neg : list entry :=
  [ File "a.npy";
    Dir "scans" [File "b.npy"; File "notes.txt"];
    Special "lock" ].

Definition sample_pos : list entry :=
  [ File "c.npy"; Dir "old.npy" [] ].

Definition sample_fs : filesystem :=
  λ path,
    if String.eqb path "vol" then
      Some (Dir "vol" [Dir "0" sample_neg; Dir "1" sample_pos])
    else if String.eqb path "vol/0" then Some (Dir "0" sample_neg)
    else if String.eqb path "vol/1" then Some (Dir "1" sample_pos)
    else if String.eqb path "../../SETTINGS.json" then Some (File "SETTINGS.json")
    else None.

(** Volumes as numbers: the volume stored in a file is the length of its
    path. *)
Definition sample_load (f : string) : result nat := Ok (String.length f).
Definition sample_zeros (shape : list Z) : nat := 0.

(** Every sample volume has the shape of a row and is stored as it is. *)
Definition sample_shape_of (v : nat) : list Z := [32; 32; 64; 1]%Z.
Definition sample_as_row (shape : list Z) (v : nat) : nat := v.

(** The same, with one file that cannot be read. *)
Definition sample_load_bad (f : string) : result nat :=
  if String.eqb f "vol/0/scans/b.npy" then Raise (ValueError "not a volume")
  else Ok (String.length f).

(** The same, with the volume of one file, the one of value 17, of another
    shape. *)
Definition sample_shape_of_bad (v : nat) : list Z :=
  if (v =? 17)%nat then [16; 16; 16]%Z else [32; 32; 64; 1]%Z.

(** A split directory with a volume file outside the label directories. *)
Definition sample_fs_stray : filesystem :=
  λ path,
    if String.eqb path "data" then
      Some (Dir "data" [Dir "0" sample_neg; File "stray.npy"; Dir "1" sample_pos])
    else if String.eqb path "data/0" then Some (Dir "0" sample_neg)
    else if String.eqb path "data/1" then Some (Dir "1" sample_pos)
    else None.

(** * Properties *)

Local Open Scope nat_scope.
Local Open Scope list_scope.

(** ** File discovery *)

(** Induction on a directory tree, with the hypothesis for every entry of
    a directory. *)
Lemma entry_tree_ind (P : entry → Prop) :
  (∀ n, P (File n)) →
  (∀ n items, Forall P items → P (Dir n items)) →
  (∀ n, P (Special n)) →
  ∀ e, P e.
Proof.
  intros HF HD HS. fix IH 1. intros [n|n items|n].
  - apply HF.
  - apply HD. induction items as [|e items IHitems]; constructor.
    + apply IH.
    + exact IHitems.
  - apply HS.
Qed.

Lemma get_data_files_item_File root n :
  get_data_files_item root (File n) =
  if endswith (os_path_join root n) ".npy" then [os_path_join root n] else [].
Proof. reflexivity. Qed.

Lemma get_data_files_item_Dir root n sub :
  get_data_files_item root (Dir n sub) =
  get_data_files_in (os_path_join root n) sub.
Proof. reflexivity. Qed.

Lemma get_data_files_item_Special root n :
  get_data_files_item root (Special n) = [].
Proof. reflexivity. Qed.

Lemma elem_of_get_data_files_in root items p :
  p ∈ get_data_files_in root items ↔
  ∃ item, item ∈ items ∧ p ∈ get_data_files_item root item.
Proof.
  unfold get_data_files_in. rewrite list_elem_of_In, in_flat_map.
  by setoid_rewrite list_elem_of_In.
Qed.

(** Every path that the walk yields is a regular file below the root and
    ends in the extension. *)
Lemma get_data_files_sound item :
  ∀ root items p,
    item ∈ items →
    p ∈ get_data_files_item root item →
    file_under root items p ∧ endswith p ".npy" = true.
Proof.
  induction item as [n|n sub IH|n] using entry_tree_ind; intros root items p Hin Hp.
  - rewrite get_data_files_item_File in Hp.
    destruct (endswith (os_path_join root n) ".npy") eqn:E.
    + apply list_elem_of_singleton in Hp as ->. split; [|exact E].
      by apply file_here.
    + by apply not_elem_of_nil in Hp.
  - rewrite get_data_files_item_Dir in Hp.
    apply elem_of_get_data_files_in in Hp as (item & Hsub & Hp).
    rewrite Forall_forall in IH.
    destruct (IH item Hsub _ _ _ Hsub Hp) as [Hf He].
    split; [|exact He]. by eapply file_below.
  - rewrite get_data_files_item_Special in Hp. by apply not_elem_of_nil in Hp.
Qed.

(** Every regular file below the root whose path ends in the extension is
    yielded. *)
Lemma get_data_files_complete root items p :
  file_under root items p →
  endswith p ".npy" = true →
  p ∈ get_data_files_in root items.
Proof.
  induction 1 as [root items n Hin|root items n sub p Hin Hsub IH]; intros He.
  - apply elem_of_get_data_files_in. exists (File n). split; [exact Hin|].
    rewrite get_data_files_item_File, He. apply list_elem_of_singleton. done.
  - apply elem_of_get_data_files_in. exists (Dir n sub). split; [exact Hin|].
    rewrite get_data_files_item_Dir. by apply IH.
Qed.

Lemma get_data_files_in_exact root items p :
  p ∈ get_data_files_in root items ↔
  file_under root items p ∧ endswith p ".npy" = true.
Proof.
  split.
  - intros Hp. apply elem_of_get_data_files_in in Hp as (item & Hin & Hp).
    by eapply get_data_files_sound.
  - intros [Hf He]. by apply get_data_files_complete.
Qed.

(** C6. On every directory [root], [get_data_files] returns, and the paths
    it yields are exactly the paths of the regular files anywhere in the
    tree below [root] that end in ['.npy']: directories, other kinds of
    entries and files with another ending are not among them. *)
Theorem get_data_files_exact (fs : filesystem) (root name : string)
    (items : list entry) :
  fs root = Some (Dir name items) →
  ∃ files,
    get_data_files fs root = Ok files ∧
    ∀ p, p ∈ files ↔ file_under root items p ∧ endswith p ".npy" = true.
Proof.
  intros Hroot. exists (get_data_files_in root items). split.
  - unfold get_data_files. by rewrite Hroot.
  - apply get_data_files_in_exact.
Qed.

Lemma get_data_files_exact_witness :
  sample_fs "vol/0" = Some (Dir "0" sample_neg) ∧
  ∃ files,
    get_data_files sample_fs "vol/0" = Ok files ∧
    ∀ p, p ∈ files ↔
         file_under "vol/0" sample_neg p ∧ endswith p ".npy" = true.
Proof.
  split; [reflexivity|].
  exact (get_data_files_exact sample_fs "vol/0" "0" sample_neg eq_refl).
Defined.

(** A directory whose name ends in the extension is entered, not yielded;
    a file with another ending and an entry that is neither a file nor a
    directory are passed over. *)
Example get_data_files_sample :
  get_data_files sample_fs "vol/0" = Ok ["vol/0/a.npy"; "vol/0/scans/b.npy"] ∧
  get_data_files sample_fs "vol/1" = Ok ["vol/1/c.npy"] ∧
  get_data_files sample_fs "vol/2" = Raise (FileNotFoundError "vol/2").
Proof. repeat split; reflexivity. Qed.

(** ** The training configuration *)

(** [b * (n // b)] is the largest multiple of [b] that does not exceed
    [n]. *)
Lemma floor_to_multiple (b n : nat) :
  0 < b →
  Nat.divide b (b * (n / b)) ∧
  b * (n / b) ≤ n ∧
  (∀ k, Nat.divide b k → k ≤ n → k ≤ b * (n / b)) ∧
  (n < b → b * (n / b) = 0).
Proof.
  intros Hb. repeat split.
  - exists (n / b). lia.
  - apply Nat.Div0.mul_div_le.
  - intros k [c ->] Hk.
    assert (c ≤ n / b) by (apply Nat.div_le_lower_bound; lia).
    nia.
  - intros Hn. rewrite Nat.div_small by exact Hn. lia.
Qed.

Lemma count_files_ok fs root files w :
  get_data_files fs root = Ok files →
  count_files fs root w =
  (Ok (length files),
   {| names := names w; trace := trace w ++ [EvListFiles root] |}).
Proof.
  intros H. unfold count_files, M_bind, emit, lift, M_ret. simpl. by rewrite H.
Qed.

(** C9. In the entry point, [samples_per_epoch] and [nb_val_samples] are
    [batch_size * (n // batch_size)] for the number [n] of volume files
    under the training and the validation directory. Each is a multiple of
    the batch size, is at most [n], is the largest such multiple, and is 0
    when [n] is below the batch size. *)
Theorem training_config_counts (fs : filesystem) (train_dir val_dir : string)
    (train_files val_files : list string) (w : world) :
  get_data_files fs train_dir = Ok train_files →
  get_data_files fs val_dir = Ok val_files →
  ∃ samples_per_epoch nb_val_samples,
    (training_config fs train_dir val_dir w).1 =
      Ok (16, 1000, samples_per_epoch, nb_val_samples) ∧
    samples_per_epoch = 16 * (length train_files / 16) ∧
    nb_val_samples = 16 * (length val_files / 16) ∧
    (Nat.divide 16 samples_per_epoch ∧
     samples_per_epoch ≤ length train_files ∧
     (∀ k, Nat.divide 16 k → k ≤ length train_files → k ≤ samples_per_epoch) ∧
     (length train_files < 16 → samples_per_epoch = 0)) ∧
    (Nat.divide 16 nb_val_samples ∧
     nb_val_samples ≤ length val_files ∧
     (∀ k, Nat.divide 16 k → k ≤ length val_files → k ≤ nb_val_samples) ∧
     (length val_files < 16 → nb_val_samples = 0)).
Proof.
  intros Ht Hv.
  exists (16 * (length train_files / 16)), (16 * (length val_files / 16)).
  split; [|split; [reflexivity|split; [reflexivity|]]].
  - unfold training_config, M_bind.
    rewrite (count_files_ok _ _ _ _ Ht), (count_files_ok _ _ _ _ Hv).
    reflexivity.
  - split; apply floor_to_multiple; lia.
Qed.

Lemma training_config_counts_witness :
  get_data_files sample_fs "vol/0" = Ok ["vol/0/a.npy"; "vol/0/scans/b.npy"] ∧
  get_data_files sample_fs "vol/1" = Ok ["vol/1/c.npy"] ∧
  ∃ samples_per_epoch nb_val_samples,
    (training_config sample_fs "vol/0" "vol/1" initial_world).1 =
      Ok (16, 1000, samples_per_epoch, nb_val_samples) ∧
    samples_per_epoch = 16 * (2 / 16) ∧
    nb_val_samples = 16 * (1 / 16) ∧
    (Nat.divide 16 samples_per_epoch ∧
     samples_per_epoch ≤ 2 ∧
     (∀ k, Nat.divide 16 k → k ≤ 2 → k ≤ samples_per_epoch) ∧
     (2 < 16 → samples_per_epoch = 0)) ∧
    (Nat.divide 16 nb_val_samples ∧
     nb_val_samples ≤ 1 ∧
     (∀ k, Nat.divide 16 k → k ≤ 1 → k ≤ nb_val_samples) ∧
     (1 < 16 → nb_val_samples = 0)).
Proof.
  split; [reflexivity|]. split; [reflexivity|].
  exact (training_config_counts sample_fs "vol/0" "vol/1"
           ["vol/0/a.npy"; "vol/0/scans/b.npy"] ["vol/1/c.npy"]
           initial_world eq_refl eq_refl).
Defined.

(** ** The entry point *)

(** No import binds [json]. *)
Lemma json_not_imported : "json" ∉ module_globals.
Proof.
  apply (bool_decide_eq_false_1 ("json" ∈ module_globals)). vm_compute. reflexivity.
Qed.

(** C5. Run as the main program on a file system that has the settings
    file, the script opens it and then stops with [NameError] at
    [json.load]: the settings are never parsed, and no sample is counted,
    no generator, model or training loop is set up. Without the settings
    file the run stops at [open]. *)
Theorem main_stops_at_json_load {volume : Type} (zeros : list Z → volume)
    (shape_of : volume → list Z) (as_row : list Z → volume → volume)
    (np_load : string → result volume) (rnd_train rnd_val : nat → nat)
    (os_path_abspath os_path_dirname : string → string)
    (script_basename : string) (fs : filesystem) :
  let run := main zeros shape_of as_row np_load rnd_train rnd_val os_path_abspath
               os_path_dirname script_basename fs initial_world in
  match fs SETTINGS_FILE_PATH with
  | Some (File _) =>
      run.1 = Raise (NameError "json") ∧
      trace run.2 = [EvOpen SETTINGS_FILE_PATH; EvClose SETTINGS_FILE_PATH]
  | _ =>
      run.1 = Raise (FileNotFoundError SETTINGS_FILE_PATH) ∧
      trace run.2 = []
  end.
Proof.
  unfold main, with_file, open_file, M_bind.
  destruct (fs SETTINGS_FILE_PATH) as [[n|n items|n]|]; split; reflexivity.
Qed.

(** The run on the sample tree, which has a settings file. *)
Example main_sample_run :
  let r := main sample_zeros sample_shape_of sample_as_row sample_load
             (λ i, i) (λ i, i) (λ p, p) (λ p, p) "sd01a.py" sample_fs
             initial_world in
  r.1 = Raise (NameError "json") ∧
  trace r.2 = [EvOpen "../../SETTINGS.json"; EvClose "../../SETTINGS.json"].
Proof. split; reflexivity. Qed.

(** ** The shuffle *)

Section Shuffle.
Context {A : Type}.
Implicit Types x : list A.

Lemma insert_head_Permutation x j a b :
  x !! j = Some b → b :: <[j:=a]> x ≡ₚ a :: x.
Proof.
  revert j. induction x as [|c x IH]; intros [|j] Hj; simplify_eq/=.
  - apply Permutation_swap.
  - rewrite Permutation_swap, (IH _ Hj). apply Permutation_swap.
Qed.

Lemma swap_Permutation x i j : swap x i j ≡ₚ x.
Proof.
  unfold swap.
  destruct (x !! i) as [xi|] eqn:Hi; [|done].
  destruct (x !! j) as [xj|] eqn:Hj; [|done].
  destruct (decide (i = j)) as [->|Hne].
  - rewrite Hi in Hj. injection Hj as ->.
    by rewrite !(list_insert_id x j xj) by done.
  - apply (Permutation_cons_inv (a := xj)).
    rewrite insert_head_Permutation
      by (by rewrite list_lookup_insert_ne).
    by apply insert_head_Permutation.
Qed.

Lemma shuffle_loop_Permutation rnd i x : shuffle_loop rnd i x ≡ₚ x.
Proof.
  revert x. induction i as [|i IH]; intros x; simpl; [done|].
  rewrite IH. apply swap_Permutation.
Qed.

Lemma random_state_shuffle_Permutation rnd x : random_state_shuffle rnd x ≡ₚ x.
Proof. apply shuffle_loop_Permutation. Qed.

(** Rows related one by one to permuted indices are permuted rows. *)
Lemma Forall2_Permutation_l {B} (P : nat → B → Prop) (idx idx' : list nat) r :
  idx ≡ₚ idx' →
  Forall2 P idx r →
  ∃ r', Forall2 P idx' r' ∧ r ≡ₚ r'.
Proof.
  intros Hp. revert r.
  induction Hp as [|j idx idx' Hp IH|j k idx|idx idx1 idx2 Hp1 IH1 Hp2 IH2];
    intros r Hr.
  - exists r. by split.
  - inversion Hr as [|? a ? r0 Ha Hr0]; subst.
    destruct (IH _ Hr0) as (r' & Hr1 & Hr').
    exists (a :: r'). split; by constructor.
  - inversion Hr as [|? a ? r0 Ha Hr0]; subst.
    inversion Hr0 as [|? b ? r1 Hb Hr1]; subst.
    exists (b :: a :: r1). split; [by repeat constructor|]. apply Permutation_swap.
  - destruct (IH1 _ Hr) as (r1 & H1 & Hp1').
    destruct (IH2 _ H1) as (r2 & H2 & Hp2').
    exists r2. split; [done|]. by etrans.
Qed.

(** Taking rows at permuted indices permutes the rows taken. *)
Lemma np_take_Permutation x (idx idx' : list nat) r :
  idx ≡ₚ idx' →
  np_take x idx = Some r →
  ∃ r', np_take x idx' = Some r' ∧ r ≡ₚ r'.
Proof.
  unfold np_take. intros Hp Hr. apply mapM_Some_1 in Hr.
  destruct (Forall2_Permutation_l _ _ _ _ Hp Hr) as (r' & Hr' & Hperm).
  exists r'. split; [by apply mapM_Some_2|done].
Qed.

(** Taking every row in order gives the array back. *)
Lemma np_take_all x : np_take x (seq 0 (length x)) = Some x.
Proof.
  apply mapM_Some_2, Forall2_same_length_lookup_2.
  - by rewrite length_seq.
  - intros i j a Hj Ha. apply lookup_seq in Hj as [-> _]. done.
Qed.

Lemma np_take_in_range x (idx : list nat) :
  Forall (λ j, j < length x) idx → is_Some (np_take x idx).
Proof.
  intros H. apply mapM_is_Some_2. eapply Forall_impl; [exact H|].
  intros j Hj. by apply lookup_lt_is_Some_2.
Qed.
End Shuffle.

(** The shuffle of two arrays of one length returns, and its result is
    described by the index permutation that was drawn. *)
Lemma sklearn_shuffle_indices {A B} (rnd : nat → nat) (X : list A) (y : list B) :
  length X = length y →
  let pi := random_state_shuffle rnd (seq 0 (length X)) in
  ∃ X' y',
    sklearn_shuffle rnd X y = Ok (X', y') ∧
    np_take X pi = Some X' ∧ np_take y pi = Some y' ∧
    X' ≡ₚ X ∧ y' ≡ₚ y.
Proof.
  intros Hlen pi.
  assert (Hpi : seq 0 (length X) ≡ₚ pi).
  { symmetry. apply random_state_shuffle_Permutation. }
  destruct (np_take_Permutation X _ _ _ Hpi (np_take_all X)) as (X' & HX & HpX).
  assert (Hpi' : seq 0 (length y) ≡ₚ pi) by (by rewrite <- Hlen).
  destruct (np_take_Permutation y _ _ _ Hpi' (np_take_all y)) as (y' & Hy & Hpy).
  exists X', y'. repeat split; try done.
  unfold sklearn_shuffle. fold pi.
  rewrite (proj2 (Nat.eqb_eq _ _) Hlen). simpl. by rewrite HX, Hy.
Qed.

(** C2. Shuffling preserves the pairing of volumes and labels: for arrays
    [X] and [y] of one length the shuffle returns arrays [X'] and [y'] of
    that length and there is a permutation [pi] of the indices with
    [X'[i] = X[pi(i)]] and [y'[i] = y[pi(i)]] for every [i]. The
    (volume, label) pairs are the same up to order, and so is the number of
    labels of each kind. *)
Theorem sklearn_shuffle_preserves_pairing {A B} (rnd : nat → nat)
    (X : list A) (y : list B) :
  length X = length y →
  ∃ (pi : list nat) (X' : list A) (y' : list B),
    sklearn_shuffle rnd X y = Ok (X', y') ∧
    pi ≡ₚ seq 0 (length X) ∧
    length X' = length X ∧ length y' = length X ∧
    (∀ i, i < length X →
       ∃ j, pi !! i = Some j ∧ X' !! i = X !! j ∧ y' !! i = y !! j) ∧
    zip X' y' ≡ₚ zip X y ∧
    (∀ label : B → bool,
       length (filter (λ b, label b = true) y') =
       length (filter (λ b, label b = true) y)).
Proof.
  intros Hlen.
  destruct (sklearn_shuffle_indices rnd X y Hlen) as (X' & y' & Hs & HX & Hy & HpX & HpY).
  set (pi := random_state_shuffle rnd (seq 0 (length X))) in *.
  assert (Hpi : pi ≡ₚ seq 0 (length X)) by apply random_state_shuffle_Permutation.
  assert (Hlpi : length pi = length X) by (by rewrite Hpi, length_seq).
  pose proof (mapM_Some_1 _ _ _ HX) as FX.
  pose proof (mapM_Some_1 _ _ _ Hy) as Fy.
  exists pi, X', y'. split; [exact Hs|]. split; [exact Hpi|].
  split; [by rewrite HpX|]. split; [by rewrite HpY|].
  split; [|split].
  - intros i Hi.
    destruct (lookup_lt_is_Some_2 pi i) as [j Hj]; [lia|].
    exists j. split; [exact Hj|].
    destruct (Forall2_lookup_l _ _ _ _ _ FX Hj) as (a & -> & ->).
    destruct (Forall2_lookup_l _ _ _ _ _ Fy Hj) as (b & -> & ->).
    done.
  - assert (Hz : np_take (zip X y) pi = Some (zip X' y')).
    { apply mapM_Some_2, Forall2_same_length_lookup_2.
      - rewrite length_zip, <- (Forall2_length _ _ _ FX), <- (Forall2_length _ _ _ Fy).
        lia.
      - intros i j [a b] Hj Hab. apply lookup_zip_Some in Hab as [Ha Hb].
        apply lookup_zip_Some.
        destruct (Forall2_lookup_l _ _ _ _ _ FX Hj) as (a' & ? & ?).
        destruct (Forall2_lookup_l _ _ _ _ _ Fy Hj) as (b' & ? & ?).
        by simplify_eq. }
    assert (Hpz : pi ≡ₚ seq 0 (length (zip X y))).
    { rewrite length_zip, <- Hlen, Nat.min_id. exact Hpi. }
    destruct (np_take_Permutation _ _ _ _ Hpz Hz) as (r & Hr & Hperm).
    rewrite np_take_all in Hr. by simplify_eq.
  - intros label. by rewrite HpY.
Qed.

Lemma sklearn_shuffle_preserves_pairing_witness :
  length [10; 20; 30] = length [false; true; true] ∧
  ∃ (pi : list nat) (X' : list nat) (y' : list bool),
    sklearn_shuffle (λ i, 0) [10; 20; 30] [false; true; true] = Ok (X', y') ∧
    pi ≡ₚ seq 0 (length [10; 20; 30]) ∧
    length X' = length [10; 20; 30] ∧ length y' = length [10; 20; 30] ∧
    (∀ i, i < length [10; 20; 30] →
       ∃ j, pi !! i = Some j ∧ X' !! i = [10; 20; 30] !! j ∧
            y' !! i = [false; true; true] !! j) ∧
    zip X' y' ≡ₚ zip [10; 20; 30] [false; true; true] ∧
    (∀ label : bool → bool,
       length (filter (λ b, label b = true) y') =
       length (filter (λ b, label b = true) [false; true; true])).
Proof.
  split; [reflexivity|].
  exact (sklearn_shuffle_preserves_pairing (λ i, 0) [10; 20; 30]
           [false; true; true] eq_refl).
Defined.

(** With every draw equal to 0 the loop swaps the last row to the front,
    then the new second row to the front. *)
Example sklearn_shuffle_sample :
  sklearn_shuffle (λ i, 0) [10; 20; 30] [false; true; true] =
  Ok ([20; 30; 10], [true; true; false]).
Proof. reflexivity. Qed.

(** ** Data assembly *)

Section AssemblyProperties.
Context {volume : Type}.
Variable zeros : list Z → volume.
Variable shape_of : volume → list Z.
Variable as_row : list Z → volume → volume.
Variable np_load : string → result volume.
(** The array that each file holds. *)
Variable vol : string → volume.

Lemma set_row_ok (image_shape : list Z) (X : list volume) (i : nat) (v : volume) :
  4 ≤ length image_shape →
  broadcastable (shape_of v) image_shape = true →
  i < length X →
  set_row shape_of as_row image_shape X i v = Ok (<[i := as_row image_shape v]> X).
Proof.
  intros H4 Hb Hi. unfold set_row.
  rewrite (proj2 (Nat.ltb_ge _ _)) by lia. rewrite Hb. simpl.
  by rewrite (proj2 (Nat.ltb_lt _ _) Hi).
Qed.

(** The loop writes the stored volumes to the rows [i], [i+1], ... in the
    order of the files and leaves the other rows alone. *)
Lemma load_loop_ok (image_shape : list Z) (files : list string) :
  4 ≤ length image_shape →
  loadable shape_of np_load vol image_shape files →
  ∀ i (X : list volume),
    i + length files ≤ length X →
    load_loop shape_of as_row np_load image_shape i files X =
    Ok (take i X ++ ((λ f, as_row image_shape (vol f)) <$> files) ++
        drop (i + length files) X).
Proof.
  intros H4. induction files as [|f rest IH]; intros Hload i X Hlen; simpl in *.
  - rewrite Nat.add_0_r. by rewrite take_drop.
  - destruct (Hload f) as [Hf Hb]; [by left|]. rewrite Hf. simpl.
    rewrite set_row_ok by (done || lia). simpl.
    rewrite IH.
    + f_equal.
      rewrite (take_S_r _ _ (as_row image_shape (vol f)))
        by (apply list_lookup_insert_eq; lia).
      rewrite take_insert_ge by lia.
      rewrite drop_insert_lt by lia.
      rewrite <- app_assoc. simpl.
      by replace (i + S (length rest)) with (S (i + length rest)) by lia.
    + intros g Hg. apply Hload. by right.
    + rewrite length_insert. lia.
Qed.

Lemma load_loop_all (image_shape : list Z) (files : list string) (X : list volume) :
  4 ≤ length image_shape →
  loadable shape_of np_load vol image_shape files →
  length X = length files →
  load_loop shape_of as_row np_load image_shape 0 files X =
  Ok ((λ f, as_row image_shape (vol f)) <$> files).
Proof.
  intros H4 Hload Hlen. rewrite load_loop_ok by (done || lia).
  simpl. rewrite drop_ge by lia. by rewrite app_nil_r.
Qed.

Lemma labels_before_shuffle (n_neg n_pos : nat) :
  astype_bool (np_hstack (np_zeros n_neg) (np_ones n_pos)) =
  replicate n_neg false ++ replicate n_pos true.
Proof.
  unfold astype_bool, np_hstack, np_zeros, np_ones.
  by rewrite fmap_app, !fmap_replicate.
Qed.

(** The arrays before the shuffle, when both label directories are there,
    the image shape has four axes or more, none of them negative, and every
    file loads and fits a row. *)
Lemma assemble_ok (fs : filesystem) (split_dir : string) (image_shape : list Z)
    (neg_files pos_files : list string) :
  get_data_files fs (os_path_join split_dir "0") = Ok neg_files →
  get_data_files fs (os_path_join split_dir "1") = Ok pos_files →
  4 ≤ length image_shape →
  forallb (λ d, (0 <=? d)%Z) image_shape = true →
  loadable shape_of np_load vol image_shape (neg_files ++ pos_files) →
  assemble zeros shape_of as_row np_load fs split_dir image_shape =
  Ok ((λ f, as_row image_shape (vol f)) <$> (neg_files ++ pos_files),
      replicate (length neg_files) false ++ replicate (length pos_files) true).
Proof.
  intros Hneg Hpos H4 Hnn Hload. unfold assemble. rewrite Hneg. simpl.
  rewrite Hpos. simpl. rewrite Hnn. simpl.
  rewrite load_loop_all by
    (done || by rewrite length_replicate, length_app).
  simpl. by rewrite labels_before_shuffle.
Qed.

(** C1. Before the shuffle, the arrays of a split pair every volume with
    the label of the sub-directory its file was found in. When both label
    directories are there, the image shape has four axes or more, none
    negative, and every file loads an array that fits a row, the assembly
    returns: the rows of [X] are the stored volumes (the loaded arrays as
    [float64] rows) of the files under ['0'] followed by those of the files
    under ['1'], in the order of discovery, and [y] has one [False] for
    each file under ['0'] followed by one [True] for each file under
    ['1']. *)
Theorem assemble_labels_match (fs : filesystem) (split_dir : string)
    (image_shape : list Z) (neg_files pos_files : list string) :
  get_data_files fs (os_path_join split_dir "0") = Ok neg_files →
  get_data_files fs (os_path_join split_dir "1") = Ok pos_files →
  4 ≤ length image_shape →
  forallb (λ d, (0 <=? d)%Z) image_shape = true →
  (∀ f, f ∈ neg_files ++ pos_files →
        np_load f = Ok (vol f) ∧
        broadcastable (shape_of (vol f)) image_shape = true) →
  ∃ X y,
    assemble zeros shape_of as_row np_load fs split_dir image_shape = Ok (X, y) ∧
    X = ((λ f, as_row image_shape (vol f)) <$> neg_files) ++
        ((λ f, as_row image_shape (vol f)) <$> pos_files) ∧
    y = replicate (length neg_files) false ++ replicate (length pos_files) true ∧
    (∀ i f, neg_files !! i = Some f →
            X !! i = Some (as_row image_shape (vol f)) ∧ y !! i = Some false) ∧
    (∀ i f, pos_files !! i = Some f →
            X !! (length neg_files + i) = Some (as_row image_shape (vol f)) ∧
            y !! (length neg_files + i) = Some true).
Proof.
  intros Hneg Hpos H4 Hnn Hload.
  exists (((λ f, as_row image_shape (vol f)) <$> neg_files) ++
          ((λ f, as_row image_shape (vol f)) <$> pos_files)),
         (replicate (length neg_files) false ++ replicate (length pos_files) true).
  split; [|split; [reflexivity|split; [reflexivity|split]]].
  - rewrite (assemble_ok fs split_dir image_shape neg_files pos_files)
      by done.
    by rewrite fmap_app.
  - intros i f Hf. pose proof (lookup_lt_Some _ _ _ Hf) as Hi. split.
    + rewrite lookup_app_l by (by rewrite length_fmap).
      by rewrite list_lookup_fmap, Hf.
    + rewrite lookup_app_l by (by rewrite length_replicate).
      by apply lookup_replicate_2.
  - intros i f Hf. pose proof (lookup_lt_Some _ _ _ Hf) as Hi. split.
    + rewrite lookup_app_r by (rewrite length_fmap; lia).
      rewrite length_fmap, Nat.add_comm, Nat.add_sub.
      by rewrite list_lookup_fmap, Hf.
    + rewrite lookup_app_r by (rewrite length_replicate; lia).
      rewrite length_replicate, Nat.add_comm, Nat.add_sub.
      by apply lookup_replicate_2.
Qed.
End AssemblyProperties.

Lemma assemble_labels_match_witness :
  get_data_files sample_fs (os_path_join "vol" "0") =
    Ok ["vol/0/a.npy"; "vol/0/scans/b.npy"] ∧
  get_data_files sample_fs (os_path_join "vol" "1") = Ok ["vol/1/c.npy"] ∧
  4 ≤ length [32; 32; 64; 1]%Z ∧
  forallb (λ d, (0 <=? d)%Z) [32; 32; 64; 1]%Z = true ∧
  (∀ f, f ∈ ["vol/0/a.npy"; "vol/0/scans/b.npy"] ++ ["vol/1/c.npy"] →
        sample_load f = Ok (String.length f) ∧
        broadcastable (sample_shape_of (String.length f)) [32; 32; 64; 1]%Z = true) ∧
  ∃ X y,
    assemble sample_zeros sample_shape_of sample_as_row sample_load sample_fs
      "vol" [32; 32; 64; 1]%Z = Ok (X, y) ∧
    X = ((λ f, sample_as_row [32; 32; 64; 1]%Z (String.length f)) <$>
           ["vol/0/a.npy"; "vol/0/scans/b.npy"]) ++
        ((λ f, sample_as_row [32; 32; 64; 1]%Z (String.length f)) <$>
           ["vol/1/c.npy"]) ∧
    y = replicate (length ["vol/0/a.npy"; "vol/0/scans/b.npy"]) false ++
        replicate (length ["vol/1/c.npy"]) true ∧
    (∀ i f, ["vol/0/a.npy"; "vol/0/scans/b.npy"] !! i = Some f →
            X !! i = Some (sample_as_row [32; 32; 64; 1]%Z (String.length f)) ∧
            y !! i = Some false) ∧
    (∀ i f, ["vol/1/c.npy"] !! i = Some f →
            X !! (length ["vol/0/a.npy"; "vol/0/scans/b.npy"] + i) =
              Some (sample_as_row [32; 32; 64; 1]%Z (String.length f)) ∧
            y !! (length ["vol/0/a.npy"; "vol/0/scans/b.npy"] + i) = Some true).
Proof.
  split; [reflexivity|]. split; [reflexivity|]. split; [simpl; lia|].
  split; [reflexivity|]. split; [intros f _; split; reflexivity|].
  exact (assemble_labels_match sample_zeros sample_shape_of sample_as_row
           sample_load String.length sample_fs
           "vol" [32; 32; 64; 1]%Z ["vol/0/a.npy"; "vol/0/scans/b.npy"]
           ["vol/1/c.npy"] eq_refl eq_refl ltac:(simpl; lia) eq_refl
           (λ f _, conj eq_refl eq_refl)).
Defined.

(** The arrays of the sample split, and the three ways in which line 41
    fails: an array of another shape, an image shape of fewer than four
    axes, and a file that does not load. *)
Example assemble_sample :
  assemble sample_zeros sample_shape_of sample_as_row sample_load sample_fs
    "vol" [32; 32; 64; 1]%Z = Ok ([11; 17; 11], [false; false; true]) ∧
  assemble sample_zeros sample_shape_of_bad sample_as_row sample_load sample_fs
    "vol" [32; 32; 64; 1]%Z = Raise (ValueError "could not broadcast input array") ∧
  assemble sample_zeros sample_shape_of sample_as_row sample_load sample_fs
    "vol" [32; 64; 1]%Z = Raise (IndexError 5) ∧
  assemble sample_zeros sample_shape_of sample_as_row sample_load_bad sample_fs
    "vol" [32; 32; 64; 1]%Z = Raise (ValueError "not a volume").
Proof. repeat split; reflexivity. Qed.

(** Shapes that an assignment into a row of shape (32, 32, 64, 1) takes
    and refuses. *)
Example broadcastable_sample :
  broadcastable [32; 32; 64; 1]%Z [32; 32; 64; 1]%Z = true ∧
  broadcastable [1; 32; 32; 64; 1]%Z [32; 32; 64; 1]%Z = true ∧
  broadcastable [64; 1]%Z [32; 32; 64; 1]%Z = true ∧
  broadcastable []%Z [32; 32; 64; 1]%Z = true ∧
  broadcastable [32; 32; 64]%Z [32; 32; 64; 1]%Z = false ∧
  broadcastable [16; 16; 16]%Z [32; 32; 64; 1]%Z = false ∧
  broadcastable [2; 32; 32; 64; 1]%Z [32; 32; 64; 1]%Z = false.
Proof. repeat split; reflexivity. Qed.

(** ** The residual block *)

(** The transformed path of [res_block]: normalisation, ReLU, strided
    3x3x3 convolution, normalisation, ReLU, 3x3x3 convolution of stride 1. *)
Lemma res_block_unfold (input_tensor : tensor) (nb_filters block subsample_factor : Z) :
  res_block input_tensor nb_filters block subsample_factor =
  merge
    [ Convolution3D nb_filters 3 3 3 (1, 1, 1)%Z "same"
        (Activation "relu"
           (BatchNormalization 4
              (Convolution3D nb_filters 3 3 3
                 (subsample_factor, subsample_factor, subsample_factor) "same"
                 (Activation "relu" (BatchNormalization 4 input_tensor)))));
      if (subsample_factor >? 1)%Z
      then Convolution3D nb_filters 1 1 1
             (subsample_factor, subsample_factor, subsample_factor) "same"
             input_tensor
      else input_tensor ]
    "sum".
Proof. reflexivity. Qed.

Lemma conv_output_length_same (d k s : Z) :
  conv_output_length d k "same" s = Some ((d + s - 1) / s)%Z.
Proof. reflexivity. Qed.

Lemma conv_output_length_valid (d k s : Z) :
  conv_output_length d k "valid" s = Some ((d - k + 1 + s - 1) / s)%Z.
Proof. reflexivity. Qed.

Lemma stride_one (l : Z) : ((l + 1 - 1) / 1)%Z = l.
Proof. rewrite Z.div_1_r. lia. Qed.

(** A convolution with one positive stride for the three axes and equal
    padding. *)
Lemma output_shape_conv_same (x : tensor) (nb k1 k2 k3 s d1 d2 d3 c : Z) :
  (0 < s)%Z →
  output_shape x = Some [d1; d2; d3; c] →
  output_shape (Convolution3D nb k1 k2 k3 (s, s, s) "same" x) =
  Some [((d1 + s - 1) / s)%Z; ((d2 + s - 1) / s)%Z; ((d3 + s - 1) / s)%Z; nb].
Proof.
  intros Hs H. cbn [output_shape]. rewrite H.
  rewrite (proj2 (Z.ltb_lt 0 s) Hs). cbn [andb].
  by rewrite !conv_output_length_same.
Qed.

(** A convolution with a stride that is not positive has no shape. *)
Lemma output_shape_conv_bad_stride (x : tensor) (nb k1 k2 k3 s : Z) (mode : string) :
  (s ≤ 0)%Z →
  output_shape (Convolution3D nb k1 k2 k3 (s, s, s) mode x) = None.
Proof.
  intros Hs. cbn [output_shape].
  rewrite (proj2 (Z.ltb_ge 0 s) Hs). cbn [andb].
  by destruct (output_shape x) as [[|? [|? [|? [|? [|? ?]]]]]|].
Qed.

Lemma output_shape_merge2 (a b : tensor) (mode : string) :
  output_shape (merge [a; b] mode) =
  (sa ← output_shape a;
   if bool_decide (output_shape b = Some sa) then Some sa else None).
Proof.
  cbn [output_shape forallb]. destruct (output_shape a) as [sa|]; [|done].
  cbn [mbind option_bind]. by rewrite andb_true_r.
Qed.

(** The transformed path of a block with a positive factor. *)
Lemma output_shape_transformed (x : tensor) (nb s d1 d2 d3 c : Z) :
  (0 < s)%Z →
  output_shape x = Some [d1; d2; d3; c] →
  output_shape
    (Convolution3D nb 3 3 3 (1, 1, 1)%Z "same"
       (Activation "relu"
          (BatchNormalization 4
             (Convolution3D nb 3 3 3 (s, s, s) "same"
                (Activation "relu" (BatchNormalization 4 x)))))) =
  Some [((d1 + s - 1) / s)%Z; ((d2 + s - 1) / s)%Z; ((d3 + s - 1) / s)%Z; nb].
Proof.
  intros Hs H.
  assert (H1 : output_shape
                 (Activation "relu"
                    (BatchNormalization 4
                       (Convolution3D nb 3 3 3 (s, s, s) "same"
                          (Activation "relu" (BatchNormalization 4 x))))) =
               Some [((d1 + s - 1) / s)%Z; ((d2 + s - 1) / s)%Z;
                     ((d3 + s - 1) / s)%Z; nb]).
  { apply (output_shape_conv_same _ nb 3 3 3 s d1 d2 d3 c Hs). exact H. }
  assert (H01 : (0 < 1)%Z) by lia.
  rewrite (output_shape_conv_same _ nb 3 3 3 1 _ _ _ nb H01 H1).
  by rewrite !stride_one.
Qed.

(** A strided block divides the three spatial extents by the factor,
    rounding up, and sets the number of channels. *)
Lemma output_shape_res_block_strided (x : tensor) (nb blk s d1 d2 d3 c : Z) :
  (1 < s)%Z →
  output_shape x = Some [d1; d2; d3; c] →
  output_shape (res_block x nb blk s) =
  Some [((d1 + s - 1) / s)%Z; ((d2 + s - 1) / s)%Z; ((d3 + s - 1) / s)%Z; nb].
Proof.
  intros Hs H. rewrite res_block_unfold.
  rewrite (proj2 (Z.gtb_gt _ _)) by lia.
  assert (Hs0 : (0 < s)%Z) by lia.
  rewrite output_shape_merge2.
  rewrite (output_shape_transformed _ nb _ _ _ _ _ Hs0 H).
  cbn [mbind option_bind].
  rewrite (output_shape_conv_same _ nb 1 1 1 _ _ _ _ _ Hs0 H).
  by rewrite bool_decide_eq_true_2.
Qed.

(** A block of factor 1 keeps the shape when the input has the number of
    channels of the block, and has no shape otherwise: the identity
    shortcut cannot be added to a path of another width. *)
Lemma output_shape_res_block_identity (x : tensor) (nb blk d1 d2 d3 c : Z) :
  output_shape x = Some [d1; d2; d3; c] →
  output_shape (res_block x nb blk 1) =
  if bool_decide (c = nb) then Some [d1; d2; d3; nb] else None.
Proof.
  intros H. rewrite res_block_unfold.
  change (1 >? 1)%Z with false. cbv iota.
  assert (H01 : (0 < 1)%Z) by lia.
  rewrite output_shape_merge2.
  rewrite (output_shape_transformed _ nb _ _ _ _ _ H01 H).
  rewrite !stride_one. cbn [mbind option_bind]. rewrite H.
  destruct (decide (c = nb)) as [->|Hne].
  - by rewrite !bool_decide_eq_true_2.
  - rewrite (bool_decide_eq_false_2 (c = nb)) by done.
    rewrite bool_decide_eq_false_2; [done|]. intros [=]. done.
Qed.

(** A block with a factor that is not positive has no shape. *)
Lemma output_shape_res_block_bad_stride (x : tensor) (nb blk s : Z) :
  (s ≤ 0)%Z → output_shape (res_block x nb blk s) = None.
Proof.
  intros Hs. rewrite res_block_unfold, output_shape_merge2.
  cbn [output_shape].
  rewrite (proj2 (Z.ltb_ge 0 s) Hs). cbn [andb].
  by destruct (output_shape x) as [[|? [|? [|? [|? [|? ?]]]]]|].
Qed.

(** The value of a two-input sum merge is the elementwise sum of the values
    of its inputs, which must have one size. *)
Lemma eval_merge_sum layer_op kernel bias (x shortcut : tensor) (input : list fval) :
  eval layer_op kernel bias (merge [x; shortcut] "sum") input =
  (a ← eval layer_op kernel bias x input;
   b ← eval layer_op kernel bias shortcut input;
   if (length b =? length a)%nat then Some (zip_with f_add a b) else None).
Proof.
  cbn [eval]. change (String.eqb "sum" "sum") with true. cbv iota.
  cbn [mapM].
  destruct (eval layer_op kernel bias x input) as [a|]; [|reflexivity].
  destruct (eval layer_op kernel bias shortcut input) as [b|]; [|reflexivity].
  cbn. by destruct (length b =? length a)%nat.
Qed.

(** C3, as first stated for every input tensor and every factor, fails on
    a block of factor 1 whose input has another number of channels than
    the block: the call raises. *)
Lemma res_block_identity_needs_equal_width :
  output_shape (Input [8; 8; 8; 16]%Z) = Some [8; 8; 8; 16]%Z ∧
  call_res_block (Input [8; 8; 8; 16]%Z) 32 1 1 = None.
Proof. split; reflexivity. Qed.

(** C3 (amended). On an input tensor of shape [(d1, d2, d3, c)],
    [res_block] forms the transformed path by batch normalisation, ReLU, a
    3x3x3 convolution with the given stride, a second batch normalisation,
    a second ReLU and a second 3x3x3 convolution of stride 1. For a factor
    greater than 1 it returns the sum of the transformed path and a 1x1x1
    convolution of the input with the given stride; for the factor 1 and an
    input of [nb_filters] channels it returns the sum of the transformed
    path and the input itself. For the factor 1 and an input of another
    number of channels, and for a factor of 0 or less, the call raises.
    The value of the sum is the elementwise sum of the values of the two
    paths. *)
Theorem res_block_structure (input_tensor : tensor)
    (nb_filters block subsample_factor d1 d2 d3 c : Z) :
  output_shape input_tensor = Some [d1; d2; d3; c] →
  let subsample := (subsample_factor, subsample_factor, subsample_factor) in
  let transformed :=
    Convolution3D nb_filters 3 3 3 (1, 1, 1)%Z "same"
      (Activation "relu"
         (BatchNormalization 4
            (Convolution3D nb_filters 3 3 3 subsample "same"
               (Activation "relu" (BatchNormalization 4 input_tensor))))) in
  let projection :=
    Convolution3D nb_filters 1 1 1 subsample "same" input_tensor in
  ((1 < subsample_factor)%Z →
     call_res_block input_tensor nb_filters block subsample_factor =
     Some (merge [transformed; projection] "sum")) ∧
  (subsample_factor = 1%Z → c = nb_filters →
     call_res_block input_tensor nb_filters block subsample_factor =
     Some (merge [transformed; input_tensor] "sum")) ∧
  (subsample_factor = 1%Z → c ≠ nb_filters →
     call_res_block input_tensor nb_filters block subsample_factor = None) ∧
  ((subsample_factor ≤ 0)%Z →
     call_res_block input_tensor nb_filters block subsample_factor = None) ∧
  (∀ layer_op kernel bias (shortcut : tensor) (input : list fval),
     eval layer_op kernel bias (merge [transformed; shortcut] "sum") input =
     (a ← eval layer_op kernel bias transformed input;
      b ← eval layer_op kernel bias shortcut input;
      if (length b =? length a)%nat then Some (zip_with f_add a b) else None)).
Proof.
  intros H subsample transformed projection. unfold call_res_block, checked.
  split; [|split; [|split; [|split]]].
  - intros Hs. rewrite (output_shape_res_block_strided _ _ _ _ _ _ _ _ Hs H).
    cbn [mbind option_bind]. rewrite res_block_unfold.
    by rewrite (proj2 (Z.gtb_gt _ _)) by lia.
  - intros -> ->. rewrite (output_shape_res_block_identity _ _ _ _ _ _ _ H).
    by rewrite bool_decide_eq_true_2.
  - intros -> Hc. rewrite (output_shape_res_block_identity _ _ _ _ _ _ _ H).
    by rewrite bool_decide_eq_false_2.
  - intros Hs. by rewrite output_shape_res_block_bad_stride.
  - intros layer_op kernel bias shortcut input. apply eval_merge_sum.
Qed.

Lemma res_block_structure_witness :
  output_shape (Input [32; 32; 64; 16]%Z) = Some [32; 32; 64; 16]%Z ∧
  call_res_block (Input [32; 32; 64; 16]%Z) 32 1 2 =
  Some (merge
          [ Convolution3D 32 3 3 3 (1, 1, 1)%Z "same"
              (Activation "relu"
                 (BatchNormalization 4
                    (Convolution3D 32 3 3 3 (2, 2, 2)%Z "same"
                       (Activation "relu"
                          (BatchNormalization 4 (Input [32; 32; 64; 16]%Z))))));
            Convolution3D 32 1 1 1 (2, 2, 2)%Z "same" (Input [32; 32; 64; 16]%Z) ]
          "sum").
Proof.
  split; [reflexivity|].
  apply (res_block_structure (Input [32; 32; 64; 16]%Z) 32 1 2 32 32 64 16 eq_refl).
  lia.
Defined.

(** The two shortcuts on a concrete input, and the calls that raise. *)
Example res_block_shortcuts :
  res_block (Input [8; 8; 8; 16]%Z) 16 0 1 =
    merge
      [ Convolution3D 16 3 3 3 (1, 1, 1)%Z "same"
          (Activation "relu"
             (BatchNormalization 4
                (Convolution3D 16 3 3 3 (1, 1, 1)%Z "same"
                   (Activation "relu"
                      (BatchNormalization 4 (Input [8; 8; 8; 16]%Z))))));
        Input [8; 8; 8; 16]%Z ] "sum" ∧
  output_shape (res_block (Input [8; 8; 8; 16]%Z) 16 0 1) = Some [8; 8; 8; 16]%Z ∧
  output_shape (res_block (Input [8; 8; 8; 16]%Z) 32 1 2) = Some [4; 4; 4; 32]%Z ∧
  call_res_block (Input [8; 8; 8; 16]%Z) 32 1 1 = None ∧
  call_res_block (Input [8; 8; 8; 16]%Z) 16 0 0 = None ∧
  call_res_block (Input [8; 8; 16]%Z) 16 0 1 = None.
Proof. repeat split; reflexivity. Qed.

(** ** The model *)

(** The graph of [define_model]: the twelve residual blocks on top of the
    first convolution, and the head on top of the blocks. *)
Lemma define_model_unfold (image_shape : list Z) :
  model_input (define_model image_shape) = Input image_shape ∧
  model_output (define_model image_shape) =
  Dense 1 "sigmoid" "predictions"
    (Flatten
       (AveragePooling3D (4, 4, 8)%Z
          (Activation "relu"
             (BatchNormalization 4
                (apply_blocks define_model_blocks
                   (Convolution3D 16 5 5 5 (1, 1, 1)%Z "same"
                      (Input image_shape))))))).
Proof. split; reflexivity. Qed.

(** C4, as first stated with one strided block in every stage, fails in
    the first stage, whose three blocks all have [subsample_factor=1]. *)
Lemma first_stage_has_no_strided_block :
  ¬ (∀ k, k ∈ [0; 1; 2; 3]%Z → length (strided (stage k)) = 1).
Proof.
  intros H. specialize (H 0%Z ltac:(by left)). vm_compute in H. discriminate.
Qed.

(** C4 (amended). [define_model] builds a first convolution, then four
    stages of three residual blocks each, of widths 16, 32, 64 and 128, then
    normalisation, ReLU, average pooling, flattening and one sigmoid output
    unit. Each of the last three stages starts with its one strided block
    ([subsample_factor=2]); the first stage has no strided block. *)
Theorem define_model_structure (image_shape : list Z) :
  model_output (define_model image_shape) =
    Dense 1 "sigmoid" "predictions"
      (Flatten
         (AveragePooling3D (4, 4, 8)%Z
            (Activation "relu"
               (BatchNormalization 4
                  (apply_blocks define_model_blocks
                     (Convolution3D 16 5 5 5 (1, 1, 1)%Z "same"
                        (Input image_shape))))))) ∧
  define_model_blocks = stage 0 ++ stage 1 ++ stage 2 ++ stage 3 ∧
  nb_filters <$> stage 0 = [16; 16; 16]%Z ∧
  nb_filters <$> stage 1 = [32; 32; 32]%Z ∧
  nb_filters <$> stage 2 = [64; 64; 64]%Z ∧
  nb_filters <$> stage 3 = [128; 128; 128]%Z ∧
  subsample_factor <$> stage 0 = [1; 1; 1]%Z ∧
  subsample_factor <$> stage 1 = [2; 1; 1]%Z ∧
  subsample_factor <$> stage 2 = [2; 1; 1]%Z ∧
  subsample_factor <$> stage 3 = [2; 1; 1]%Z ∧
  length (strided (stage 0)) = 0 ∧
  length (strided (stage 1)) = 1 ∧
  length (strided (stage 2)) = 1 ∧
  length (strided (stage 3)) = 1.
Proof.
  split; [apply define_model_unfold|].
  repeat split; vm_compute; reflexivity.
Qed.

(** The shapes along the model on the volumes of the entry point: every
    strided block halves the three spatial extents, and the head reduces
    the last feature map to one number. *)
Example define_model_shapes :
  let x0 := Convolution3D 16 5 5 5 (1, 1, 1)%Z "same" (Input [32; 32; 64; 1]%Z) in
  output_shape (apply_blocks (stage 0) x0) = Some [32; 32; 64; 16]%Z ∧
  output_shape (apply_blocks (stage 0 ++ stage 1) x0) = Some [16; 16; 32; 32]%Z ∧
  output_shape (apply_blocks (stage 0 ++ stage 1 ++ stage 2) x0) =
    Some [8; 8; 16; 64]%Z ∧
  output_shape (apply_blocks define_model_blocks x0) = Some [4; 4; 8; 128]%Z ∧
  output_shape (model_output (define_model [32; 32; 64; 1]%Z)) = Some [1]%Z.
Proof. repeat split; vm_compute; reflexivity. Qed.

(** ** The training driver *)

(** C7. [train] hands the model to the generator-based fit loop of the
    framework with exactly two callbacks: a checkpointer on the weights
    file that saves only when the validation loss improves
    ([save_best_only]) and an early stopping on the validation loss with a
    patience of 10 epochs. Generators and sample counts are passed on as
    given. *)
Theorem train_callbacks {G} (model : Model) (train_generator val_generator : G)
    (weights_filepath : string)
    (batch_size nb_epoch samples_per_epoch nb_val_samples : nat) :
  let call := train model train_generator val_generator weights_filepath
                (batch_size, nb_epoch, samples_per_epoch, nb_val_samples) in
  fit_callbacks call =
    [ Checkpointer {| mc_filepath := weights_filepath; mc_monitor := "val_loss";
                      mc_verbose := 2; mc_save_best_only := true |};
      Stopper {| es_monitor := "val_loss"; es_patience := 10; es_verbose := 2 |} ] ∧
  length (fit_callbacks call) = 2 ∧
  fit_generator call = train_generator ∧
  fit_validation_data call = val_generator ∧
  fit_samples_per_epoch call = samples_per_epoch ∧
  fit_nb_epoch call = nb_epoch ∧
  fit_nb_val_samples call = nb_val_samples.
Proof. repeat split; reflexivity. Qed.

(** ** The output of the model *)

Lemma sigmoid_range (r : R) : (0 <= 1 / (1 + exp (- r)) <= 1)%R.
Proof.
  pose proof (exp_pos (- r)) as He.
  assert (Hd : (0 < 1 + exp (- r))%R) by lra.
  split.
  - apply Rlt_le, Rdiv_lt_0_compat; lra.
  - apply (Rmult_le_reg_r (1 + exp (- r))); [exact Hd|].
    unfold Rdiv. rewrite Rmult_assoc, Rinv_l by lra. lra.
Qed.

(** The sigmoid of an element is NaN for NaN alone, and a number from 0 to
    1 otherwise. *)
Lemma sigmoid_NaN (pre : fval) : sigmoid pre = NaN ↔ pre = NaN.
Proof. by destruct pre. Qed.

Lemma sigmoid_in_unit_interval (pre : fval) :
  pre ≠ NaN → in_unit_interval (sigmoid pre).
Proof.
  destruct pre as [r| | |]; intros H; simpl; [apply sigmoid_range|lra|lra|done].
Qed.

Lemma f_add_NaN_r (a : fval) : f_add a NaN = NaN.
Proof. by destruct a. Qed.

Lemma sample_layers_keep_shapes : layers_keep_shapes sample_layer_op.
Proof.
  intros t v s H. unfold sample_layer_op. rewrite H. simpl.
  apply length_replicate.
Qed.

Lemma ceil_halving_thrice (d : Z) :
  ((((d + 2 - 1) / 2 + 2 - 1) / 2 + 2 - 1) / 2)%Z = ((d + 7) / 8)%Z.
Proof. Z.div_mod_to_equations. lia. Qed.

Section PredictProperties.
Variable layer_op : tensor → list fval → list fval.
Variable kernel : tensor → nat → nat → fval.
Variable bias : tensor → nat → fval.
Hypothesis layer_sizes : layers_keep_shapes layer_op.
Variable input : list fval.

Local Abbreviation sized := (sized layer_op kernel bias input).

Lemma sized_Input (shape : list Z) :
  length input = size shape → sized (Input shape) shape.
Proof.
  intros H. split; [done|]. exists input. cbn.
  by rewrite H, Nat.eqb_refl.
Qed.

Lemma sized_BatchNormalization (axis : Z) (x : tensor) (s : list Z) :
  sized x s → sized (BatchNormalization axis x) s.
Proof.
  intros [Hs (v & Hv & _)]. split; [exact Hs|].
  exists (layer_op (BatchNormalization axis x) v). cbn [eval].
  rewrite Hv. split; [done|]. by apply layer_sizes.
Qed.

Lemma sized_relu (x : tensor) (s : list Z) :
  sized x s → sized (Activation "relu" x) s.
Proof.
  intros [Hs (v & Hv & Hl)]. split; [exact Hs|].
  exists (relu <$> v). cbn [eval].
  change (activation_fn "relu") with (Some relu). cbn [mbind option_bind].
  rewrite Hv. split; [done|]. by rewrite length_fmap.
Qed.

Lemma sized_Convolution3D (nb k1 k2 k3 : Z) (sub : Z * Z * Z) (mode : string)
    (x : tensor) (sx s : list Z) :
  sized x sx →
  output_shape (Convolution3D nb k1 k2 k3 sub mode x) = Some s →
  sized (Convolution3D nb k1 k2 k3 sub mode x) s.
Proof.
  intros [_ (v & Hv & _)] Hs. split; [exact Hs|].
  exists (layer_op (Convolution3D nb k1 k2 k3 sub mode x) v).
  cbn [eval]. rewrite Hv. split; [done|]. by apply layer_sizes.
Qed.

Lemma sized_AveragePooling3D (pool : Z * Z * Z) (x : tensor) (sx s : list Z) :
  sized x sx →
  output_shape (AveragePooling3D pool x) = Some s →
  sized (AveragePooling3D pool x) s.
Proof.
  intros [_ (v & Hv & _)] Hs. split; [exact Hs|].
  exists (layer_op (AveragePooling3D pool x) v).
  cbn [eval]. rewrite Hv. split; [done|]. by apply layer_sizes.
Qed.

Lemma sized_merge_sum (a b : tensor) (s : list Z) :
  sized a s → sized b s → sized (merge [a; b] "sum") s.
Proof.
  intros [Ha (va & Hva & Hla)] [Hb (vb & Hvb & Hlb)]. split.
  - rewrite output_shape_merge2, Ha. cbn [mbind option_bind].
    by rewrite bool_decide_eq_true_2.
  - exists (zip_with f_add va vb). rewrite eval_merge_sum, Hva, Hvb.
    cbn [mbind option_bind]. rewrite Hla, Hlb, Nat.eqb_refl.
    split; [done|]. rewrite length_zip_with. lia.
Qed.

Lemma sized_Flatten (x : tensor) (s : list Z) :
  sized x s →
  forallb (λ d, negb (d =? 0)%Z) s = true →
  sized (Flatten x) [foldr Z.mul 1%Z s].
Proof.
  intros [Hs (v & Hv & Hl)] Hnz. split.
  - cbn [output_shape]. rewrite Hs. cbn [mbind option_bind]. by rewrite Hnz.
  - exists v. split; [exact Hv|]. rewrite Hl. unfold size. simpl.
    by rewrite Z.mul_1_r.
Qed.

(** The transformed path of a block has a value of its shape. *)
Lemma sized_transformed (x : tensor) (nb s d1 d2 d3 c : Z) :
  (0 < s)%Z →
  sized x [d1; d2; d3; c] →
  sized
    (Convolution3D nb 3 3 3 (1, 1, 1)%Z "same"
       (Activation "relu"
          (BatchNormalization 4
             (Convolution3D nb 3 3 3 (s, s, s) "same"
                (Activation "relu" (BatchNormalization 4 x))))))
    [((d1 + s - 1) / s)%Z; ((d2 + s - 1) / s)%Z; ((d3 + s - 1) / s)%Z; nb].
Proof.
  intros Hs Hx.
  eapply sized_Convolution3D.
  - apply sized_relu, sized_BatchNormalization.
    eapply sized_Convolution3D.
    + apply sized_relu, sized_BatchNormalization. exact Hx.
    + apply (output_shape_conv_same _ nb 3 3 3 s d1 d2 d3 c Hs).
      exact (proj1 Hx).
  - apply (output_shape_transformed x nb s d1 d2 d3 c Hs). exact (proj1 Hx).
Qed.

Lemma sized_res_block_strided (x : tensor) (nb blk s d1 d2 d3 c : Z) :
  (1 < s)%Z →
  sized x [d1; d2; d3; c] →
  sized (res_block x nb blk s)
    [((d1 + s - 1) / s)%Z; ((d2 + s - 1) / s)%Z; ((d3 + s - 1) / s)%Z; nb].
Proof.
  intros Hs Hx. assert (Hs0 : (0 < s)%Z) by lia.
  rewrite res_block_unfold. rewrite (proj2 (Z.gtb_gt _ _)) by lia.
  apply sized_merge_sum.
  - by apply (sized_transformed x nb s d1 d2 d3 c).
  - eapply sized_Convolution3D; [exact Hx|].
    apply (output_shape_conv_same _ nb 1 1 1 s d1 d2 d3 c Hs0). exact (proj1 Hx).
Qed.

Lemma sized_res_block_identity (x : tensor) (nb blk d1 d2 d3 : Z) :
  sized x [d1; d2; d3; nb] →
  sized (res_block x nb blk 1) [d1; d2; d3; nb].
Proof.
  intros Hx. assert (H01 : (0 < 1)%Z) by lia.
  rewrite res_block_unfold. change (1 >? 1)%Z with false. cbv iota.
  apply sized_merge_sum; [|exact Hx].
  pose proof (sized_transformed x nb 1 d1 d2 d3 nb H01 Hx) as H.
  by rewrite !stride_one in H.
Qed.

(** The twelve blocks of [define_model] on a feature map of 16 channels. *)
Lemma sized_define_model_blocks (x : tensor) (d1 d2 d3 : Z) :
  sized x [d1; d2; d3; 16%Z] →
  sized (apply_blocks define_model_blocks x)
    [((d1 + 7) / 8)%Z; ((d2 + 7) / 8)%Z; ((d3 + 7) / 8)%Z; 128%Z].
Proof.
  intros H0. unfold apply_blocks, define_model_blocks. cbn [foldl nb_filters block
    subsample_factor].
  assert (H2 : (1 < 2)%Z) by lia.
  pose proof (sized_res_block_identity _ 16 0 _ _ _ H0) as H1.
  pose proof (sized_res_block_identity _ 16 0 _ _ _ H1) as H1'.
  pose proof (sized_res_block_identity _ 16 0 _ _ _ H1') as H3.
  pose proof (sized_res_block_strided _ 32 1 2 _ _ _ _ H2 H3) as H4.
  pose proof (sized_res_block_identity _ 32 1 _ _ _ H4) as H5.
  pose proof (sized_res_block_identity _ 32 1 _ _ _ H5) as H6.
  pose proof (sized_res_block_strided _ 64 2 2 _ _ _ _ H2 H6) as H7.
  pose proof (sized_res_block_identity _ 64 2 _ _ _ H7) as H8.
  pose proof (sized_res_block_identity _ 64 2 _ _ _ H8) as H9.
  pose proof (sized_res_block_strided _ 128 3 2 _ _ _ _ H2 H9) as H10.
  pose proof (sized_res_block_identity _ 128 3 _ _ _ H10) as H11.
  pose proof (sized_res_block_identity _ 128 3 _ _ _ H11) as H12.
  by rewrite !ceil_halving_thrice in H12.
Qed.

(** The flattened features of the model on a volume that is large enough
    for the pooling window. *)
Lemma sized_define_model_features (d1 d2 d3 c : Z) :
  (25 ≤ d1)%Z → (25 ≤ d2)%Z → (57 ≤ d3)%Z →
  length input = size [d1; d2; d3; c] →
  let x0 := Convolution3D 16 5 5 5 (1, 1, 1)%Z "same" (Input [d1; d2; d3; c]) in
  sized
    (Flatten
       (AveragePooling3D (4, 4, 8)%Z
          (Activation "relu"
             (BatchNormalization 4 (apply_blocks define_model_blocks x0)))))
    [foldr Z.mul 1%Z
       [((d1 + 7) / 8 / 4)%Z; ((d2 + 7) / 8 / 4)%Z; ((d3 + 7) / 8 / 8)%Z; 128%Z]].
Proof.
  intros H1 H2 H3 Hin x0. assert (H01 : (0 < 1)%Z) by lia.
  assert (Hx0 : sized x0 [d1; d2; d3; 16%Z]).
  { eapply sized_Convolution3D; [by apply sized_Input|].
    rewrite (output_shape_conv_same (Input [d1; d2; d3; c]) 16 5 5 5 1
               d1 d2 d3 c H01 eq_refl).
    by rewrite !stride_one. }
  pose proof (sized_define_model_blocks x0 d1 d2 d3 Hx0) as Hb.
  apply sized_Flatten.
  - eapply sized_AveragePooling3D;
      [apply sized_relu, sized_BatchNormalization; exact Hb|].
    cbn [output_shape]. rewrite (proj1 Hb). cbn [Z.ltb Z.compare andb].
    rewrite !conv_output_length_valid. cbn [mbind option_bind].
    do 2 f_equal; [|f_equal; [|f_equal]]; f_equal; lia.
  - cbn [forallb]. rewrite !andb_true_iff, !negb_true_iff, !Z.eqb_neq.
    repeat split; try done; Z.div_mod_to_equations; lia.
Qed.

Lemma eval_Dense (output_dim : Z) (activation name : string) (x : tensor) :
  eval layer_op kernel bias (Dense output_dim activation name x) input =
  (f ← activation_fn activation;
   v ← eval layer_op kernel bias x input;
   Some ((λ j, f (dense_unit kernel bias (Dense output_dim activation name x) v j))
           <$> seq 0 (Z.to_nat output_dim))).
Proof. reflexivity. Qed.

(** The prediction on a volume that is large enough: the sigmoid of what
    the one output unit has before its activation. *)
Lemma predict_value (d1 d2 d3 c : Z) :
  (25 ≤ d1)%Z → (25 ≤ d2)%Z → (57 ≤ d3)%Z →
  length input = size [d1; d2; d3; c] →
  call_define_model [d1; d2; d3; c] = Some (define_model [d1; d2; d3; c]) ∧
  ∃ features,
    predict layer_op kernel bias (define_model [d1; d2; d3; c]) input =
    Some [sigmoid
            (dense_unit kernel bias
               (model_output (define_model [d1; d2; d3; c])) features 0)].
Proof.
  intros H1 H2 H3 Hin.
  destruct (sized_define_model_features d1 d2 d3 c H1 H2 H3 Hin)
    as [Hs (v & Hv & _)].
  unfold call_define_model, predict.
  destruct (define_model_unfold [d1; d2; d3; c]) as [_ Hm].
  split.
  - cbn zeta. rewrite Hm at 1.
    change (output_shape (Dense 1 "sigmoid" "predictions" ?t))
      with (match output_shape t with
            | Some [_] => Some [1%Z]
            | _ => None
            end).
    by rewrite Hs.
  - exists v. rewrite Hm. rewrite eval_Dense, Hv.
    change (activation_fn "sigmoid") with (Some sigmoid).
    reflexivity.
Qed.
End PredictProperties.

(** C8, as first stated for every input, fails when a weight of the output
    unit is NaN: the model is built, the prediction on a volume of zeros is
    the one element NaN, and NaN is no number of the interval from 0 to
    1. *)
Lemma predict_is_NaN_for_a_NaN_weight :
  ∃ p,
    predict sample_layer_op (λ _ _ _, Fin 0) (λ _ _, NaN)
      (define_model [32; 32; 64; 1]%Z)
      (replicate (size [32; 32; 64; 1]%Z) (Fin 0)) = Some [p] ∧
    ¬ in_unit_interval p.
Proof.
  destruct (predict_value sample_layer_op (λ _ _ _, Fin 0) (λ _ _, NaN)
              sample_layers_keep_shapes
              (replicate (size [32; 32; 64; 1]%Z) (Fin 0)) 32 32 64 1)
    as [_ (features & Hp)]; [lia|lia|lia|apply length_replicate|].
  eexists. split; [exact Hp|].
  unfold dense_unit. rewrite f_add_NaN_r. simpl. tauto.
Qed.

(** C8 (amended). When the learned layers return arrays of the shape of
    their node, the model of an image shape [(d1, d2, d3, c)] with [d1] and
    [d2] at least 25 and [d3] at least 57 is built, and on every volume of
    that shape it outputs exactly one element: the sigmoid of what the
    output unit has before its activation. That element is NaN exactly when
    the value before the activation is NaN, and is a number of the closed
    interval from 0 to 1 otherwise. *)
Theorem predict_in_unit_interval (layer_op : tensor → list fval → list fval)
    (kernel : tensor → nat → nat → fval) (bias : tensor → nat → fval)
    (d1 d2 d3 c : Z) (input : list fval) :
  layers_keep_shapes layer_op →
  (25 ≤ d1)%Z → (25 ≤ d2)%Z → (57 ≤ d3)%Z → (1 ≤ c)%Z →
  length input = size [d1; d2; d3; c] →
  call_define_model [d1; d2; d3; c] = Some (define_model [d1; d2; d3; c]) ∧
  ∃ pre,
    predict layer_op kernel bias (define_model [d1; d2; d3; c]) input =
      Some [sigmoid pre] ∧
    (sigmoid pre = NaN ↔ pre = NaN) ∧
    (pre ≠ NaN → in_unit_interval (sigmoid pre)).
Proof.
  intros Hl H1 H2 H3 _ Hin.
  destruct (predict_value layer_op kernel bias Hl input d1 d2 d3 c H1 H2 H3 Hin)
    as [Hm (features & Hp)].
  split; [exact Hm|]. eexists. split; [exact Hp|]. split.
  - apply sigmoid_NaN.
  - apply sigmoid_in_unit_interval.
Qed.

Lemma predict_in_unit_interval_witness :
  call_define_model [32; 32; 64; 1]%Z = Some (define_model [32; 32; 64; 1]%Z) ∧
  ∃ pre,
    predict sample_layer_op (λ _ _ _, Fin 1) (λ _ _, Fin 0)
      (define_model [32; 32; 64; 1]%Z)
      (replicate (size [32; 32; 64; 1]%Z) (Fin 0)) = Some [sigmoid pre] ∧
    (sigmoid pre = NaN ↔ pre = NaN) ∧
    (pre ≠ NaN → in_unit_interval (sigmoid pre)).
Proof.
  apply (predict_in_unit_interval sample_layer_op (λ _ _ _, Fin 1) (λ _ _, Fin 0)
           32 32 64 1 (replicate (size [32; 32; 64; 1]%Z) (Fin 0))).
  - exact sample_layers_keep_shapes.
  - lia.
  - lia.
  - lia.
  - lia.
  - apply length_replicate.
Defined.

(** * Further properties *)

(** ** The arrays of a split *)

Lemma length_flat_map_Permutation {A B} (f : A → list B) (l l' : list A) :
  l ≡ₚ l' → length (flat_map f l) = length (flat_map f l').
Proof.
  induction 1 as [|a l l' _ IH|a b l|l l1 l2 _ IH1 _ IH2]; simpl.
  - done.
  - by rewrite !length_app, IH.
  - rewrite !length_app. lia.
  - by rewrite IH1.
Qed.

Lemma sample_fs_stray_mounted :
  mounted sample_fs_stray "data"
    [Dir "0" sample_neg; File "stray.npy"; Dir "1" sample_pos].
Proof.
  intros m sub H.
  apply elem_of_cons in H as [H|H]; [by simplify_eq|].
  apply elem_of_cons in H as [H|H]; [by simplify_eq|].
  apply elem_of_cons in H as [H|H]; [by simplify_eq|].
  by apply not_elem_of_nil in H.
Qed.

Section SplitProperties.
Context {volume : Type}.
Variable zeros : list Z → volume.
Variable shape_of : volume → list Z.
Variable as_row : list Z → volume → volume.
Variable np_load : string → result volume.
Variable vol : string → volume.

(** X2. The files that the entry point counts under a split directory are
    the rows that [create_data_generators] loads plus the volume files that
    lie outside the two label directories: when the split directory holds
    ['0'], ['1'] and other entries (in any order), the image shape has four
    axes or more, none negative, and every file of the two label
    directories loads an array that fits a row, the number of files found
    under the split directory is the number of rows of [X] plus the number
    of files found under the other entries, and [y] has one label for each
    row. *)
Theorem counted_files_and_loaded_rows (fs : filesystem) (split_dir name : string)
    (image_shape : list Z) (items neg pos others : list entry) :
  fs split_dir = Some (Dir name items) →
  items ≡ₚ Dir "0" neg :: Dir "1" pos :: others →
  mounted fs split_dir items →
  4 ≤ length image_shape →
  forallb (λ d, (0 <=? d)%Z) image_shape = true →
  (∀ f, f ∈ get_data_files_in (os_path_join split_dir "0") neg ++
            get_data_files_in (os_path_join split_dir "1") pos →
        np_load f = Ok (vol f) ∧
        broadcastable (shape_of (vol f)) image_shape = true) →
  ∃ files X y,
    get_data_files fs split_dir = Ok files ∧
    assemble zeros shape_of as_row np_load fs split_dir image_shape = Ok (X, y) ∧
    length y = length X ∧
    length files = length X + length (get_data_files_in split_dir others).
Proof.
  intros Hroot Hperm Hm H4 Hnn Hload.
  assert (H0 : get_data_files fs (os_path_join split_dir "0") =
               Ok (get_data_files_in (os_path_join split_dir "0") neg)).
  { unfold get_data_files. rewrite (Hm "0" neg); [done|].
    rewrite Hperm. by left. }
  assert (H1 : get_data_files fs (os_path_join split_dir "1") =
               Ok (get_data_files_in (os_path_join split_dir "1") pos)).
  { unfold get_data_files. rewrite (Hm "1" pos); [done|].
    rewrite Hperm. right. by left. }
  eexists _, _, _. split; [|split; [|split]].
  - unfold get_data_files. by rewrite Hroot.
  - by apply (assemble_ok zeros shape_of as_row np_load vol).
  - rewrite length_fmap, !length_app, !length_replicate. done.
  - unfold get_data_files_in at 1.
    rewrite (length_flat_map_Permutation _ _ _ Hperm). cbn [flat_map].
    rewrite !get_data_files_item_Dir.
    rewrite length_fmap, !length_app. unfold get_data_files_in. lia.
Qed.



(** The loop stops at the first file whose load or whose assignment to a
    row raises. *)
Lemma load_loop_first_error (image_shape : list Z) (good : list string)
    (f : string) (rest : list string) (e : exn) :
  4 ≤ length image_shape →
  loadable shape_of np_load vol image_shape good →
  (np_load f = Raise e ∨
   ∃ v, np_load f = Ok v ∧ broadcastable (shape_of v) image_shape = false ∧
        e = ValueError "could not broadcast input array") →
  ∀ i (X : list volume),
    i + length good < length X →
    load_loop shape_of as_row np_load image_shape i (good ++ f :: rest) X = Raise e.
Proof.
  intros H4 Hgood Hf. induction good as [|g good IH]; intros i X Hi; simpl.
  - destruct Hf as [Hf|(v & Hf & Hb & ->)]; rewrite Hf; [done|]. simpl.
    unfold set_row. rewrite (proj2 (Nat.ltb_ge _ _)) by lia. by rewrite Hb.
  - destruct (Hgood g) as [Hg Hb]; [by left|]. rewrite Hg. simpl in *.
    rewrite (set_row_ok shape_of as_row) by (done || lia). simpl.
    apply IH.
    + intros h Hh. apply Hgood. by right.
    + rewrite length_insert. lia.
Qed.

(** X4. A volume file that cannot be used aborts the assembly of its split
    and no arrays are returned. In the order ['0'] files then ['1'] files,
    the first file that does not load raises the error of [np.load], and the
    first file whose array does not fit a row raises [ValueError], whichever
    of the two comes first. *)
Theorem assemble_first_load_error (fs : filesystem) (split_dir : string)
    (image_shape : list Z) (neg_files pos_files good rest : list string)
    (f : string) :
  get_data_files fs (os_path_join split_dir "0") = Ok neg_files →
  get_data_files fs (os_path_join split_dir "1") = Ok pos_files →
  4 ≤ length image_shape →
  forallb (λ d, (0 <=? d)%Z) image_shape = true →
  neg_files ++ pos_files = good ++ f :: rest →
  (∀ g, g ∈ good →
        np_load g = Ok (vol g) ∧
        broadcastable (shape_of (vol g)) image_shape = true) →
  (∀ e, np_load f = Raise e →
        assemble zeros shape_of as_row np_load fs split_dir image_shape = Raise e) ∧
  (∀ v, np_load f = Ok v →
        broadcastable (shape_of v) image_shape = false →
        assemble zeros shape_of as_row np_load fs split_dir image_shape =
        Raise (ValueError "could not broadcast input array")).
Proof.
  intros Hneg Hpos H4 Hnn Hsplit Hgood.
  assert (Hrun : ∀ e,
    (np_load f = Raise e ∨
     ∃ v, np_load f = Ok v ∧ broadcastable (shape_of v) image_shape = false ∧
          e = ValueError "could not broadcast input array") →
    assemble zeros shape_of as_row np_load fs split_dir image_shape = Raise e).
  { intros e He. unfold assemble.
    rewrite Hneg. simpl. rewrite Hpos. simpl. rewrite Hnn. simpl. rewrite Hsplit.
    rewrite (load_loop_first_error image_shape good f rest e H4 Hgood He); [done|].
    rewrite length_replicate, <- length_app, Hsplit, length_app. simpl. lia. }
  split.
  - intros e He. apply Hrun. by left.
  - intros v Hv Hb. apply Hrun. right. by exists v.
Qed.

End SplitProperties.

Lemma counted_files_and_loaded_rows_witness :
  ∃ files X y,
    get_data_files sample_fs_stray "data" = Ok files ∧
    assemble sample_zeros sample_shape_of sample_as_row sample_load
      sample_fs_stray "data" [32; 32; 64; 1]%Z = Ok (X, y) ∧
    length y = length X ∧
    length files = length X + length (get_data_files_in "data" [File "stray.npy"]).
Proof.
  apply (counted_files_and_loaded_rows sample_zeros sample_shape_of sample_as_row
           sample_load String.length
           sample_fs_stray "data" "data" [32; 32; 64; 1]%Z
           [Dir "0" sample_neg; File "stray.npy"; Dir "1" sample_pos]
           sample_neg sample_pos [File "stray.npy"]).
  - reflexivity.
  - apply perm_skip, perm_swap.
  - exact sample_fs_stray_mounted.
  - simpl. lia.
  - reflexivity.
  - intros f _. split; reflexivity.
Defined.

(** On the sample directory with a stray file, four files are counted and
    three rows are loaded. *)
Example counted_files_sample :
  get_data_files sample_fs_stray "data" =
    Ok ["data/0/a.npy"; "data/0/scans/b.npy"; "data/stray.npy"; "data/1/c.npy"] ∧
  assemble sample_zeros sample_shape_of sample_as_row sample_load
    sample_fs_stray "data" [32; 32; 64; 1]%Z =
    Ok ([12; 18; 12], [false; false; true]).
Proof. split; reflexivity. Qed.


Lemma assemble_first_load_error_witness :
  (∀ e, sample_load_bad "vol/0/scans/b.npy" = Raise e →
        assemble sample_zeros sample_shape_of sample_as_row sample_load_bad
          sample_fs "vol" [32; 32; 64; 1]%Z = Raise e) ∧
  (∀ v, sample_load_bad "vol/0/scans/b.npy" = Ok v →
        broadcastable (sample_shape_of v) [32; 32; 64; 1]%Z = false →
        assemble sample_zeros sample_shape_of sample_as_row sample_load_bad
          sample_fs "vol" [32; 32; 64; 1]%Z =
        Raise (ValueError "could not broadcast input array")).
Proof.
  apply (assemble_first_load_error sample_zeros sample_shape_of sample_as_row
           sample_load_bad String.length
           sample_fs "vol" [32; 32; 64; 1]%Z
           ["vol/0/a.npy"; "vol/0/scans/b.npy"] ["vol/1/c.npy"]
           ["vol/0/a.npy"] ["vol/1/c.npy"] "vol/0/scans/b.npy").
  - reflexivity.
  - reflexivity.
  - simpl. lia.
  - reflexivity.
  - reflexivity.
  - intros g Hg. apply list_elem_of_singleton in Hg as ->. split; reflexivity.
Defined.


(** ** Shapes through the residual blocks *)

(** X6. The shape of a residual block on a feature map of shape
    [(d1, d2, d3, c)], for a factor of at least 1: the three spatial extents
    are divided by the factor, rounding up, and the channels become
    [nb_filters]. The one exception is a block of factor 1 on an input whose
    channel count differs from [nb_filters]: its identity shortcut has
    another shape than the transformed path and the sum has no shape. *)
Theorem res_block_shape (x : tensor) (nb_filters block subsample_factor : Z)
    (d1 d2 d3 c : Z) :
  (1 ≤ subsample_factor)%Z →
  output_shape x = Some [d1; d2; d3; c] →
  output_shape (res_block x nb_filters block subsample_factor) =
  if bool_decide (subsample_factor = 1%Z ∧ c ≠ nb_filters) then None
  else Some [((d1 + subsample_factor - 1) / subsample_factor)%Z;
             ((d2 + subsample_factor - 1) / subsample_factor)%Z;
             ((d3 + subsample_factor - 1) / subsample_factor)%Z;
             nb_filters].
Proof.
  intros Hs H. destruct (decide (subsample_factor = 1%Z)) as [->|Hne].
  - rewrite (output_shape_res_block_identity _ _ _ _ _ _ _ H), !stride_one.
    destruct (decide (c = nb_filters)) as [->|Hc].
    + rewrite bool_decide_eq_true_2 by done.
      rewrite bool_decide_eq_false_2; [done|]. intros [_ ?]. done.
    + rewrite bool_decide_eq_false_2 by done.
      by rewrite bool_decide_eq_true_2.
  - assert (Hs' : (1 < subsample_factor)%Z) by lia.
    rewrite (output_shape_res_block_strided _ _ _ _ _ _ _ _ Hs' H).
    rewrite bool_decide_eq_false_2; [done|]. intros [? _]. done.
Qed.

Lemma res_block_shape_witness :
  output_shape (res_block (Input [32; 32; 64; 16]%Z) 32 1 2) =
  if bool_decide (2%Z = 1%Z ∧ 16%Z ≠ 32%Z) then None
  else Some [((32 + 2 - 1) / 2)%Z; ((32 + 2 - 1) / 2)%Z; ((64 + 2 - 1) / 2)%Z; 32%Z].
Proof.
  apply (res_block_shape (Input [32; 32; 64; 16]%Z) 32 1 2 32 32 64 16).
  - lia.
  - reflexivity.
Defined.

(** The shape after the twelve blocks of [define_model]. *)
Lemma output_shape_define_model_blocks (x : tensor) (d1 d2 d3 : Z) :
  output_shape x = Some [d1; d2; d3; 16%Z] →
  output_shape (apply_blocks define_model_blocks x) =
  Some [((d1 + 7) / 8)%Z; ((d2 + 7) / 8)%Z; ((d3 + 7) / 8)%Z; 128%Z].
Proof.
  intros H0. unfold apply_blocks, define_model_blocks. cbn [foldl nb_filters block
    subsample_factor].
  assert (H2 : (1 < 2)%Z) by lia.
  pose proof (output_shape_res_block_identity _ 16 0 _ _ _ _ H0) as H1.
  rewrite bool_decide_eq_true_2 in H1 by done.
  pose proof (output_shape_res_block_identity _ 16 0 _ _ _ _ H1) as H1'.
  rewrite bool_decide_eq_true_2 in H1' by done.
  pose proof (output_shape_res_block_identity _ 16 0 _ _ _ _ H1') as H3.
  rewrite bool_decide_eq_true_2 in H3 by done.
  pose proof (output_shape_res_block_strided _ 32 1 2 _ _ _ _ H2 H3) as H4.
  pose proof (output_shape_res_block_identity _ 32 1 _ _ _ _ H4) as H5.
  rewrite bool_decide_eq_true_2 in H5 by done.
  pose proof (output_shape_res_block_identity _ 32 1 _ _ _ _ H5) as H6.
  rewrite bool_decide_eq_true_2 in H6 by done.
  pose proof (output_shape_res_block_strided _ 64 2 2 _ _ _ _ H2 H6) as H7.
  pose proof (output_shape_res_block_identity _ 64 2 _ _ _ _ H7) as H8.
  rewrite bool_decide_eq_true_2 in H8 by done.
  pose proof (output_shape_res_block_identity _ 64 2 _ _ _ _ H8) as H9.
  rewrite bool_decide_eq_true_2 in H9 by done.
  pose proof (output_shape_res_block_strided _ 128 3 2 _ _ _ _ H2 H9) as H10.
  pose proof (output_shape_res_block_identity _ 128 3 _ _ _ _ H10) as H11.
  rewrite bool_decide_eq_true_2 in H11 by done.
  pose proof (output_shape_res_block_identity _ 128 3 _ _ _ _ H11) as H12.
  rewrite bool_decide_eq_true_2 in H12 by done.
  rewrite H12. by rewrite !ceil_halving_thrice.
Qed.

(** The shape of the model output, from the shape after the pooling. *)
Lemma output_shape_head (x : tensor) :
  output_shape (Dense 1 "sigmoid" "predictions" (Flatten x)) =
  match output_shape x with
  | Some s => if forallb (λ d, negb (d =? 0)%Z) s then Some [1%Z] else None
  | None => None
  end.
Proof.
  cbn [output_shape]. destruct (output_shape x) as [s|]; [|done].
  cbn [mbind option_bind]. by destruct (forallb _ s).
Qed.

(** X7. The graph of [define_model] on an image shape [(d1, d2, d3, c)] of
    positive extents: the twelve blocks turn the volume into a feature map
    of shape [(ceil(d1/8), ceil(d2/8), ceil(d3/8), 128)] and the pooling
    divides the three extents by 4, 4 and 8, rounding down. When [d1] and
    [d2] are at least 25 and [d3] is at least 57 the model is built and its
    output has shape [(1)]; when one of them is smaller the pooling leaves
    an extent of 0 and [define_model] raises. *)
Theorem define_model_shape (d1 d2 d3 c : Z) :
  (0 < d1)%Z → (0 < d2)%Z → (0 < d3)%Z → (1 ≤ c)%Z →
  let x0 := Convolution3D 16 5 5 5 (1, 1, 1)%Z "same" (Input [d1; d2; d3; c]) in
  let features := apply_blocks define_model_blocks x0 in
  output_shape features =
    Some [((d1 + 7) / 8)%Z; ((d2 + 7) / 8)%Z; ((d3 + 7) / 8)%Z; 128%Z] ∧
  output_shape
    (AveragePooling3D (4, 4, 8)%Z (Activation "relu" (BatchNormalization 4 features))) =
    Some [((d1 + 7) / 8 / 4)%Z; ((d2 + 7) / 8 / 4)%Z; ((d3 + 7) / 8 / 8)%Z; 128%Z] ∧
  ((25 ≤ d1)%Z ∧ (25 ≤ d2)%Z ∧ (57 ≤ d3)%Z →
     output_shape (model_output (define_model [d1; d2; d3; c])) = Some [1%Z] ∧
     call_define_model [d1; d2; d3; c] = Some (define_model [d1; d2; d3; c])) ∧
  ((d1 < 25)%Z ∨ (d2 < 25)%Z ∨ (d3 < 57)%Z →
     call_define_model [d1; d2; d3; c] = None).
Proof.
  intros P1 P2 P3 _ x0 features. assert (H01 : (0 < 1)%Z) by lia.
  assert (H0 : output_shape x0 = Some [d1; d2; d3; 16%Z]).
  { unfold x0.
    rewrite (output_shape_conv_same (Input [d1; d2; d3; c]) 16 5 5 5 1
               d1 d2 d3 c H01 eq_refl).
    by rewrite !stride_one. }
  pose proof (output_shape_define_model_blocks x0 d1 d2 d3 H0) as Hf.
  fold features in Hf.
  assert (Hp : output_shape
                 (AveragePooling3D (4, 4, 8)%Z
                    (Activation "relu" (BatchNormalization 4 features))) =
               Some [((d1 + 7) / 8 / 4)%Z; ((d2 + 7) / 8 / 4)%Z;
                     ((d3 + 7) / 8 / 8)%Z; 128%Z]).
  { cbn [output_shape]. rewrite Hf. cbn [Z.ltb Z.compare andb].
    rewrite !conv_output_length_valid.
    cbn [mbind option_bind]. do 2 f_equal; [|f_equal; [|f_equal]]; f_equal; lia. }
  assert (Hout : output_shape (model_output (define_model [d1; d2; d3; c])) =
                 if forallb (λ d, negb (d =? 0)%Z)
                      [((d1 + 7) / 8 / 4)%Z; ((d2 + 7) / 8 / 4)%Z;
                       ((d3 + 7) / 8 / 8)%Z; 128%Z]
                 then Some [1%Z] else None).
  { destruct (define_model_unfold [d1; d2; d3; c]) as [_ ->].
    fold x0. fold features. by rewrite output_shape_head, Hp. }
  split; [exact Hf|]. split; [exact Hp|]. split.
  - intros (B1 & B2 & B3).
    assert (Hnz : forallb (λ d, negb (d =? 0)%Z)
                    [((d1 + 7) / 8 / 4)%Z; ((d2 + 7) / 8 / 4)%Z;
                     ((d3 + 7) / 8 / 8)%Z; 128%Z] = true).
    { cbn [forallb]. rewrite !andb_true_iff, !negb_true_iff, !Z.eqb_neq.
      repeat split; try done; Z.div_mod_to_equations; lia. }
    rewrite Hnz in Hout. split; [exact Hout|].
    unfold call_define_model. cbn zeta. by rewrite Hout.
  - intros Hsmall.
    assert (Hz : forallb (λ d, negb (d =? 0)%Z)
                   [((d1 + 7) / 8 / 4)%Z; ((d2 + 7) / 8 / 4)%Z;
                    ((d3 + 7) / 8 / 8)%Z; 128%Z] = false).
    { cbn [forallb]. rewrite !andb_false_iff, !negb_false_iff, !Z.eqb_eq.
      destruct Hsmall as [B|[B|B]];
        [left|right; left|right; right; left];
        Z.div_mod_to_equations; lia. }
    rewrite Hz in Hout. unfold call_define_model. cbn zeta. by rewrite Hout.
Qed.

Lemma define_model_shape_witness :
  output_shape (model_output (define_model [32; 32; 64; 1]%Z)) = Some [1%Z] ∧
  call_define_model [32; 32; 64; 1]%Z = Some (define_model [32; 32; 64; 1]%Z).
Proof.
  apply (define_model_shape 32 32 64 1); lia.
Defined.

(** The model of the entry point is built; on volumes of 8 x 8 x 8 the
    pooling window does not fit and the call raises. *)
Example define_model_calls :
  is_Some (call_define_model [32; 32; 64; 1]%Z) ∧
  call_define_model [8; 8; 8; 1]%Z = None ∧
  call_define_model [24; 32; 64; 1]%Z = None.
Proof. repeat split; [by eexists|..]; vm_compute; reflexivity. Qed.

(** ** Outcomes of the shuffle *)

(** X8. The shuffle has two outcomes: on arrays of one length it returns
    arrays of that length, on arrays of different lengths it raises
    [ValueError]. Whatever the random state draws, no index leaves the
    arrays. *)
Theorem sklearn_shuffle_outcome {A B} (rnd : nat → nat) (X : list A) (y : list B) :
  (length X = length y ∧
   ∃ X' y', sklearn_shuffle rnd X y = Ok (X', y') ∧
            length X' = length X ∧ length y' = length y) ∨
  (length X ≠ length y ∧
   sklearn_shuffle rnd X y =
   Raise (ValueError "Found input variables with inconsistent numbers of samples")).
Proof.
  destruct (decide (length X = length y)) as [Hlen|Hne].
  - left. split; [exact Hlen|].
    destruct (sklearn_shuffle_indices rnd X y Hlen)
      as (X' & y' & Hs & _ & _ & HpX & HpY).
    exists X', y'. split; [exact Hs|]. by rewrite HpX, HpY.
  - right. split; [exact Hne|]. unfold sklearn_shuffle.
    by rewrite (proj2 (Nat.eqb_neq _ _) Hne).
Qed.

(** ** Paths *)

Lemma string_app_cons (c : Ascii.ascii) (s t : string) :
  String c s +:+ t = String c (s +:+ t).
Proof. reflexivity. Qed.

Lemma string_app_nil_r (s : string) : s +:+ "" = s.
Proof. induction s as [|c s IH]; [done|]. by rewrite string_app_cons, IH. Qed.

Lemma string_app_assoc (s t u : string) : (s +:+ t) +:+ u = s +:+ (t +:+ u).
Proof. induction s as [|c s IH]; [done|]. by rewrite !string_app_cons, IH. Qed.

Lemma string_app_not_empty (s t : string) : t ≠ "" → s +:+ t ≠ "".
Proof. intros Ht. destruct s; [exact Ht|]. by rewrite string_app_cons. Qed.

(** Whether a string ends in the separator is decided by its last
    characters alone. *)
Lemma endswith_sep_cons (c : Ascii.ascii) (s : string) :
  s ≠ "" → endswith (String c s) "/" = endswith s "/".
Proof.
  intros Hs. destruct s as [|c' s]; [done|].
  unfold endswith. cbn [String.length].
  change (String.length "/") with 1.
  replace (S (S (String.length s)) - 1) with (S (String.length s)) by lia.
  replace (S (String.length s) - 1) with (String.length s) by lia.
  reflexivity.
Qed.

Lemma endswith_sep_app (p s : string) :
  s ≠ "" → endswith (p +:+ s) "/" = endswith s "/".
Proof.
  intros Hs. induction p as [|c p IH]; [done|].
  rewrite string_app_cons, endswith_sep_cons; [exact IH|].
  by apply string_app_not_empty.
Qed.

(** Joining a directory that is not empty and does not end in the
    separator with a relative name puts one separator between them. *)
Lemma os_path_join_plain (a b : string) :
  a ≠ "" → endswith a "/" = false → String.prefix "/" b = false →
  os_path_join a b = a +:+ "/" +:+ b.
Proof.
  intros Ha He Hb. unfold os_path_join. rewrite Hb, He.
  by rewrite (proj2 (String.eqb_neq a "") Ha).
Qed.

(** X9. The label directories whose file counts the entry point prints,
    written [train_dir + '/0'] and so on, are the directories that
    [create_data_generators] loads from, written
    [os.path.join(train_dir, '0')]: for every base path the two spellings
    are the same path, for both labels and both splits. *)
Theorem printed_directories_are_loaded_directories (BASEPATH : string) :
  let train_dir := os_path_join BASEPATH "data_train/stage1/sex_det/volumes_1/train" in
  let val_dir := os_path_join BASEPATH "data_train/stage1/sex_det/volumes_1/val" in
  train_dir +:+ "/0" = os_path_join train_dir "0" ∧
  train_dir +:+ "/1" = os_path_join train_dir "1" ∧
  val_dir +:+ "/0" = os_path_join val_dir "0" ∧
  val_dir +:+ "/1" = os_path_join val_dir "1".
Proof.
  intros train_dir val_dir.
  assert (Hjoin : ∀ b, b ≠ "" → String.prefix "/" b = false →
            endswith b "/" = false →
            ∀ l, String.prefix "/" l = false →
            os_path_join BASEPATH b +:+ "/" +:+ l =
            os_path_join (os_path_join BASEPATH b) l).
  { intros b Hb Hp He l Hl. symmetry. apply os_path_join_plain; [| |exact Hl].
    - unfold os_path_join. rewrite Hp.
      destruct (String.eqb BASEPATH "" || endswith BASEPATH "/");
        by apply string_app_not_empty.
    - unfold os_path_join. rewrite Hp.
      destruct (String.eqb BASEPATH "" || endswith BASEPATH "/").
      + by rewrite endswith_sep_app.
      + rewrite endswith_sep_app; [|done]. by rewrite endswith_sep_app. }
  assert (Ht : "data_train/stage1/sex_det/volumes_1/train" ≠ "") by done.
  assert (Hv : "data_train/stage1/sex_det/volumes_1/val" ≠ "") by done.
  split; [exact (Hjoin _ Ht eq_refl eq_refl "0" eq_refl)|].
  split; [exact (Hjoin _ Ht eq_refl eq_refl "1" eq_refl)|].
  split; [exact (Hjoin _ Hv eq_refl eq_refl "0" eq_refl)|].
  exact (Hjoin _ Hv eq_refl eq_refl "1" eq_refl).
Qed.

(** ** No file is yielded twice *)

Lemma valid_name_inv (n : string) :
  valid_name n = true → n ≠ "" ∧ has_sep n = false.
Proof.
  unfold valid_name. intros H. apply andb_true_iff in H as [H1 H2].
  apply negb_true_iff in H1, H2. split; [|exact H2].
  by apply String.eqb_neq.
Qed.

Lemma has_sep_prefix (n : string) :
  has_sep n = false → String.prefix "/" n = false.
Proof.
  destruct n as [|c n]; [done|]. intros H. cbn [has_sep] in H.
  apply orb_false_iff in H as [Hc _].
  change (String.prefix "/" (String c n))
    with (if Ascii.ascii_dec sep_char c then String.prefix "" n else false).
  destruct (Ascii.ascii_dec sep_char c) as [<-|]; [|done].
  by vm_compute in Hc.
Qed.

Lemma has_sep_endswith (n : string) :
  has_sep n = false → endswith n "/" = false.
Proof.
  induction n as [|c n IH]; [done|]. intros H. cbn [has_sep] in H.
  apply orb_false_iff in H as [Hc Hn].
  destruct n as [|c' n].
  - unfold endswith. cbn. unfold sep_char in Hc. by rewrite Hc.
  - rewrite endswith_sep_cons by done. by apply IH.
Qed.

Lemma os_path_join_dir_prefix (root n : string) :
  has_sep n = false → os_path_join root n = dir_prefix root +:+ n.
Proof.
  intros Hn. unfold os_path_join, dir_prefix.
  rewrite (has_sep_prefix _ Hn).
  destruct (String.eqb root "" || endswith root "/"); [done|].
  by rewrite string_app_assoc.
Qed.

Lemma dir_prefix_below (p n : string) :
  n ≠ "" → has_sep n = false →
  dir_prefix (p +:+ n) = p +:+ n +:+ "/".
Proof.
  intros Hne Hn. unfold dir_prefix.
  rewrite endswith_sep_app, (has_sep_endswith _ Hn) by done.
  rewrite (proj2 (String.eqb_neq _ "")) by (by apply string_app_not_empty).
  simpl. by rewrite string_app_assoc.
Qed.

(** Every path yielded below an item starts with the path of the item,
    followed by nothing or by a separator. *)
Lemma get_data_files_item_path item :
  well_formed item = true →
  ∀ root p,
    p ∈ get_data_files_item root item →
    ∃ rest, p = dir_prefix root +:+ entry_name item +:+ rest ∧
            (rest = "" ∨ ∃ r, rest = String sep_char r).
Proof.
  induction item as [n|n sub IH|n] using entry_tree_ind; intros Hwf root p Hp.
  - rewrite get_data_files_item_File in Hp.
    destruct (endswith (os_path_join root n) ".npy");
      [|by apply not_elem_of_nil in Hp].
    apply list_elem_of_singleton in Hp as ->.
    simpl in Hwf. apply andb_true_iff in Hwf as [Hv _].
    apply valid_name_inv in Hv as [_ Hs].
    exists "". split; [|by left].
    by rewrite string_app_nil_r, os_path_join_dir_prefix.
  - rewrite get_data_files_item_Dir in Hp.
    apply elem_of_get_data_files_in in Hp as (item & Hin & Hp).
    simpl in Hwf. apply andb_true_iff in Hwf as [Hv Hsub].
    apply andb_true_iff in Hsub as [_ Hsub].
    apply valid_name_inv in Hv as [Hne Hs].
    rewrite forallb_forall in Hsub.
    rewrite Forall_forall in IH.
    destruct (IH item Hin (Hsub item (proj1 (list_elem_of_In _ _) Hin)) _ _ Hp)
      as (rest & -> & _).
    rewrite os_path_join_dir_prefix by done.
    rewrite dir_prefix_below by done.
    exists ("/" +:+ entry_name item +:+ rest). split; [|right; eauto].
    by rewrite !string_app_assoc.
  - rewrite get_data_files_item_Special in Hp. by apply not_elem_of_nil in Hp.
Qed.

(** Two names without separator that are followed by nothing or by a
    separator in one and the same string are the same name. *)
Lemma name_before_sep (n1 n2 r1 r2 : string) :
  has_sep n1 = false → has_sep n2 = false →
  (r1 = "" ∨ ∃ r, r1 = String sep_char r) →
  (r2 = "" ∨ ∃ r, r2 = String sep_char r) →
  n1 +:+ r1 = n2 +:+ r2 →
  n1 = n2.
Proof.
  revert n2. induction n1 as [|c n1 IH]; intros [|c' n2] H1 H2 Hr1 Hr2 Heq.
  - done.
  - change ("" +:+ r1) with r1 in Heq. rewrite string_app_cons in Heq.
    simpl in H2. apply orb_false_iff in H2 as [Hc _].
    destruct Hr1 as [->|[r ->]]; [done|].
    injection Heq as <- _. by rewrite Ascii.eqb_refl in Hc.
  - change ("" +:+ r2) with r2 in Heq. rewrite string_app_cons in Heq.
    simpl in H1. apply orb_false_iff in H1 as [Hc _].
    destruct Hr2 as [->|[r ->]]; [done|].
    injection Heq as -> _. by rewrite Ascii.eqb_refl in Hc.
  - rewrite !string_app_cons in Heq. injection Heq as -> Heq.
    simpl in H1, H2.
    apply orb_false_iff in H1 as [_ H1]. apply orb_false_iff in H2 as [_ H2].
    f_equal. by apply (IH n2).
Qed.

Lemma well_formed_name (e : entry) :
  well_formed e = true → has_sep (entry_name e) = false.
Proof.
  intros H. destruct e; simpl in H; apply andb_true_iff in H as [Hv _];
    by apply valid_name_inv in Hv as [_ ?].
Qed.

Lemma get_data_files_in_NoDup (items : list entry) :
  Forall (λ e, ∀ root, NoDup (get_data_files_item root e)) items →
  Forall (λ e, well_formed e = true) items →
  NoDup (entry_name <$> items) →
  ∀ root, NoDup (get_data_files_in root items).
Proof.
  unfold get_data_files_in.
  induction items as [|a items IH]; intros Hnd Hwf Hnames root; simpl.
  - constructor.
  - apply Forall_cons in Hnd as [Ha Hnd]. apply Forall_cons in Hwf as [Hwa Hwf].
    rewrite fmap_cons in Hnames. apply NoDup_cons in Hnames as [Hfresh Hnames].
    apply NoDup_app. split; [apply Ha|]. split; [|by apply IH].
    intros p Hpa Hpl.
    apply (elem_of_get_data_files_in root items p) in Hpl as (b & Hb & Hpb).
    destruct (get_data_files_item_path a Hwa _ _ Hpa) as (ra & Ea & Hra).
    rewrite Forall_forall in Hwf.
    destruct (get_data_files_item_path b (Hwf b Hb) _ _ Hpb) as (rb & Eb & Hrb).
    rewrite Ea in Eb. apply (inj (String.app _)) in Eb.
    apply name_before_sep in Eb;
      [|by apply well_formed_name|by apply well_formed_name; apply Hwf|done|done].
    apply Hfresh. rewrite Eb. apply list_elem_of_fmap. eauto.
Qed.

Lemma get_data_files_item_NoDup item :
  well_formed item = true → ∀ root, NoDup (get_data_files_item root item).
Proof.
  induction item as [n|n sub IH|n] using entry_tree_ind; intros Hwf root.
  - rewrite get_data_files_item_File.
    destruct (endswith _ _); [apply NoDup_singleton|constructor].
  - rewrite get_data_files_item_Dir.
    simpl in Hwf. apply andb_true_iff in Hwf as [_ Hsub].
    apply andb_true_iff in Hsub as [Hnames Hsub].
    apply bool_decide_eq_true in Hnames.
    rewrite forallb_forall in Hsub.
    assert (Hwf : Forall (λ e, well_formed e = true) sub).
    { apply Forall_forall. intros e He. apply Hsub. by apply list_elem_of_In. }
    apply get_data_files_in_NoDup; [|exact Hwf|exact Hnames].
    apply Forall_forall. intros e He root'.
    rewrite Forall_forall in IH, Hwf. by apply IH; [|apply Hwf].
  - rewrite get_data_files_item_Special. constructor.
Qed.

(** X10. On a directory tree in which the names of every directory are
    pairwise distinct, not empty and free of the separator,
    [get_data_files] yields no path twice: the number of files counted is
    the number of different volume files, and no volume is loaded twice. *)
Theorem get_data_files_NoDup (fs : filesystem) (root name : string)
    (items : list entry) :
  fs root = Some (Dir name items) →
  NoDup (entry_name <$> items) →
  forallb well_formed items = true →
  ∃ files, get_data_files fs root = Ok files ∧ NoDup files.
Proof.
  intros Hroot Hnames Hwf. exists (get_data_files_in root items). split.
  - unfold get_data_files. by rewrite Hroot.
  - rewrite forallb_forall in Hwf.
    assert (Hwf' : Forall (λ e, well_formed e = true) items).
    { apply Forall_forall. intros e He. apply Hwf. by apply list_elem_of_In. }
    apply get_data_files_in_NoDup; [|exact Hwf'|exact Hnames].
    apply Forall_forall. intros e He. apply get_data_files_item_NoDup.
    rewrite Forall_forall in Hwf'. by apply Hwf'.
Qed.

Lemma get_data_files_NoDup_witness :
  ∃ files, get_data_files sample_fs "vol/0" = Ok files ∧ NoDup files.
Proof.
  apply (get_data_files_NoDup sample_fs "vol/0" "0" sample_neg).
  - reflexivity.
  - apply (bool_decide_unpack _). vm_compute. exact I.
  - reflexivity.
Defined.

(** ** The name of the weights file *)

Lemma str_replace_py_here (new t : string) :
  str_replace (".py" +:+ t) ".py" new = new +:+ str_replace t ".py" new.
Proof. destruct t; reflexivity. Qed.

Lemma str_replace_py_skip (new s t : string) :
  has_dot s = false →
  str_replace (s +:+ t) ".py" new = s +:+ str_replace t ".py" new.
Proof.
  unfold str_replace. induction s as [|c s IH]; intros Hs; [done|].
  cbn [has_dot] in Hs. apply orb_false_iff in Hs as [Hc Hs].
  rewrite !string_app_cons. cbn [str_replace_from].
  change (String.prefix ".py" (String c (s +:+ t)))
    with (if Ascii.ascii_dec dot_char c then String.prefix "py" (s +:+ t) else false).
  destruct (Ascii.ascii_dec dot_char c) as [<-|_]; [by vm_compute in Hc|].
  by rewrite IH.
Qed.

(** X11. The weights file is named after the script: for a script
    [stem.py] whose stem has no dot, [basename.replace('.py', '.hdf5')] is
    [stem.hdf5]. The replacement is not tied to the end of the name: a
    ['.py'] at the front of the rest of a name is replaced as well. *)
Theorem weights_file_name (stem rest : string) :
  has_dot stem = false →
  str_replace (stem +:+ ".py") ".py" ".hdf5" = stem +:+ ".hdf5" ∧
  str_replace (stem +:+ ".py" +:+ rest) ".py" ".hdf5" =
    stem +:+ ".hdf5" +:+ str_replace rest ".py" ".hdf5".
Proof.
  intros Hs. split.
  - by rewrite str_replace_py_skip.
  - by rewrite str_replace_py_skip, str_replace_py_here.
Qed.

Lemma weights_file_name_witness :
  str_replace ("sd01a" +:+ ".py") ".py" ".hdf5" = "sd01a" +:+ ".hdf5" ∧
  str_replace ("sd01a" +:+ ".py" +:+ ".pyc.py") ".py" ".hdf5" =
    "sd01a" +:+ ".hdf5" +:+ str_replace ".pyc.py" ".py" ".hdf5".
Proof. exact (weights_file_name "sd01a" ".pyc.py" eq_refl). Defined.

(** ** The extension test looks at the file name *)

(** [endswith] by recursion on the string: the whole string is the suffix,
    or the suffix ends the rest of the string. *)
Lemma substring_all (s : string) : String.substring 0 (String.length s) s = s.
Proof. induction s as [|c s IH]; [done|]. simpl. by rewrite IH. Qed.

Lemma endswith_cons (c : Ascii.ascii) (t suf : string) :
  endswith (String c t) suf =
  if decide (String.length suf ≤ String.length t) then endswith t suf
  else String.eqb (String c t) suf.
Proof.
  unfold endswith. cbn [String.length].
  destruct (decide (String.length suf ≤ String.length t)) as [Hle|Hgt].
  - rewrite (proj2 (Nat.leb_le _ _) Hle).
    rewrite (proj2 (Nat.leb_le (String.length suf) (S (String.length t))))
      by lia.
    replace (S (String.length t) - String.length suf)
      with (S (String.length t - String.length suf)) by lia.
    reflexivity.
  - destruct (decide (String.length suf = S (String.length t))) as [->|Hne].
    + rewrite Nat.leb_refl, Nat.sub_diag.
      change (S (String.length t)) with (String.length (String c t)).
      by rewrite substring_all.
    + rewrite (proj2 (Nat.leb_gt _ _)) by lia. cbn [andb].
      symmetry. apply String.eqb_neq. intros <-. simpl in *. lia.
Qed.

Lemma endswith_cons_true (c : Ascii.ascii) (t suf : string) :
  endswith (String c t) suf = true →
  String c t = suf ∨ endswith t suf = true.
Proof.
  rewrite endswith_cons. destruct (decide _); [by right|].
  intros H. left. by apply String.eqb_eq.
Qed.

Lemma endswith_length (s suf : string) :
  endswith s suf = true → String.length suf ≤ String.length s.
Proof.
  unfold endswith. intros H. apply andb_true_iff in H as [H _].
  by apply Nat.leb_le.
Qed.

Lemma string_length_app (s t : string) :
  String.length (s +:+ t) = String.length s + String.length t.
Proof. induction s as [|c s IH]; [done|]. rewrite string_app_cons. simpl. lia. Qed.

(** A suffix of the second part is a suffix of the whole. *)
Lemma endswith_app_r (p s suf : string) :
  endswith s suf = true → endswith (p +:+ s) suf = true.
Proof.
  intros H. induction p as [|c p IH]; [done|].
  rewrite string_app_cons, endswith_cons.
  pose proof (endswith_length _ _ IH). by rewrite decide_True.
Qed.

(** A suffix of the whole is a suffix of the second part, or it starts
    inside the first part. *)
Lemma endswith_app_inv (p s suf : string) :
  endswith (p +:+ s) suf = true →
  endswith s suf = true ∨
  ∃ x y, x ≠ "" ∧ suf = x +:+ s ∧ p = y +:+ x.
Proof.
  induction p as [|c p IH]; [by left|].
  rewrite string_app_cons. intros H.
  apply endswith_cons_true in H as [H|H].
  - right. exists (String c p), "". by rewrite string_app_cons.
  - destruct (IH H) as [?|(x & y & Hx & -> & ->)]; [by left|].
    right. exists x, (String c y). by rewrite string_app_cons.
Qed.

Lemma dir_prefix_sep (root : string) :
  dir_prefix root = "" ∨ endswith (dir_prefix root) "/" = true.
Proof.
  unfold dir_prefix.
  destruct (String.eqb root "") eqn:E1; simpl.
  - left. by apply String.eqb_eq.
  - destruct (endswith root "/") eqn:E2; [by right|].
    right. by rewrite endswith_sep_app.
Qed.

(** X12. Whether an entry counts as a volume file depends on its own name
    only: for a name that is not empty and has no separator, the path of
    the entry ends in ['.npy'] exactly when the name does, whatever the
    directories above it are called. *)
Theorem extension_test_on_name (root n : string) :
  valid_name n = true →
  endswith (os_path_join root n) ".npy" = endswith n ".npy".
Proof.
  intros Hv. apply valid_name_inv in Hv as [Hne Hs].
  rewrite os_path_join_dir_prefix by done.
  destruct (endswith n ".npy") eqn:En; [by apply endswith_app_r|].
  destruct (endswith (dir_prefix root +:+ n) ".npy") eqn:Ep; [|done].
  apply endswith_app_inv in Ep as [Ep|(x & y & Hx & Hsuf & Hp)]; [congruence|].
  destruct (dir_prefix_sep root) as [Hd|Hd].
  - rewrite Hd in Hp. destruct y as [|c y].
    + change ("" +:+ x) with x in Hp. congruence.
    + by rewrite string_app_cons in Hp.
  - rewrite Hp, endswith_sep_app in Hd by done.
    destruct x as [|c1 [|c2 [|c3 [|c4 x]]]]; [done|..];
      rewrite ?string_app_cons in Hsuf; simplify_eq/=.
    destruct n; simplify_eq/=. destruct x; done.
Qed.

Lemma extension_test_on_name_witness :
  endswith (os_path_join "archive.npy" "notes.txt") ".npy" =
  endswith "notes.txt" ".npy".
Proof. exact (extension_test_on_name "archive.npy" "notes.txt" eq_refl). Defined.
